(** * bezi_bridge: the synchronisation logic of [src/bezi_bridge.py]

    A shallow embedding of the fingerprint matcher, the state classifier
    and the prompt submission protocol of [BeziBridge], with the
    properties of the specification that can be settled on them.

    The methods are functions in a monad of state, events and abrupt ends
    (exception, [SystemExit]); the window automation, the screen, the files
    and the operating system are an environment the methods call.  The
    decorator [debug_trace] only records timings around a call and lets
    its value or exception through, so it is left out, and so are the
    lines it prints on standard error under [--debug]. *)

From Stdlib Require Import ZArith List Bool Lia String SpecFloat.
From stdpp Require Import gmap strings.

Local Open Scope Z_scope.

(** ** Binary64 numbers

    [np.mean] of a boolean array accumulates in [float64] and its result is
    compared with a Python [float]; both are IEEE 754 binary64.  The
    Standard Library's executable specification [SpecFloat] is used, at
    precision 53 and maximal exponent 1024. *)
Module F64.

Definition prec : Z := 53.
Definition emax : Z := 1024.

Definition of_Z (n : Z) : spec_float := binary_normalize prec emax n 0 false.
Definition div (x y : spec_float) : spec_float := SFdiv prec emax x y.
(** Python's [x > y] and [x < y] on floats. *)
Definition gtb (x y : spec_float) : bool := SFltb y x.
Definition ltb (x y : spec_float) : bool := SFltb x y.

Definition one : spec_float := Eval vm_compute in of_Z 1.
(** The literals [0.90] and [0.95]: the binary64 numbers nearest to the
    decimal fractions, which the correctly rounded division of the exactly
    representable 9 by 10 (19 by 20) yields. *)
Definition lit_0_90 : spec_float := Eval vm_compute in div (of_Z 9) (of_Z 10).
Definition lit_0_95 : spec_float := Eval vm_compute in div (of_Z 19) (of_Z 20).

End F64.

(** ** Images and arrays *)

(** A PIL image in mode ['RGB']: its size and its pixels, row by row, each
    a triple of byte values. *)
Record Image := mkImage {
  img_width : nat;
  img_height : nat;
  img_pixels : list (Z * Z * Z)
}.

(** What [numpy] holds of an array: its shape and its elements, flattened. *)
Record ndarray := mkArray {
  shape : list nat;
  data : list Z
}.

Definition channels (p : Z * Z * Z) : list Z :=
  let '(r, g, b) := p in r :: g :: b :: nil.

(** [np.array(img)] of an RGB image: shape [(height, width, 3)]. *)
Definition np_array (img : Image) : ndarray :=
  {| shape := img_height img :: img_width img :: 3%nat :: nil;
     data := flat_map channels (img_pixels img) |}.

(** [i1 == i2] on arrays of one shape: the array of element-wise tests. *)
Fixpoint np_equal (d1 d2 : list Z) : list bool :=
  match d1, d2 with
  | x :: d1', y :: d2' => Z.eqb x y :: np_equal d1' d2'
  | _, _ => nil
  end.

Definition count_true (bs : list bool) : Z :=
  Z.of_nat (List.length (List.filter (fun b => b) bs)).

(** [np.mean] of a boolean array: the number of true elements, summed in
    [float64] (exact while it is below [2^53]), divided by the number of
    elements; [nan] on the empty array. *)
Definition np_mean (bs : list bool) : spec_float :=
  F64.div (F64.of_Z (count_true bs)) (F64.of_Z (Z.of_nat (List.length bs))).

(** [BeziBridge.images_match].  Both arguments are images here, so nothing
    in the body of the [try] raises and the [except] branch (which answers
    [False]) is not reached. *)
Definition images_match (img1 img2 : Image) (threshold : spec_float) : bool :=
  let i1 := np_array img1 in
  let i2 := np_array img2 in
  if bool_decide (shape i1 <> shape i2) then false
  else
    let matching := np_mean (np_equal (data i1) (data i2)) in
    F64.gtb matching threshold.

(** An image as PIL builds it from a picture file or a screen capture: as
    many pixels as its size says, at least one, and few enough for the sum
    in [np_mean] to be exact. *)
Definition wf_image (img : Image) : bool :=
  (List.length (img_pixels img) =? img_width img * img_height img)%nat
  && (0 <? img_width img)%nat && (0 <? img_height img)%nat
  && (Z.of_nat (3 * List.length (img_pixels img)) <? 2 ^ 53).

(** ** Values of the program *)

(** The strings ["BUSY"], ["INACTIVE"], ["READY"] and ["UNKNOWN"] that
    [get_button_state] returns. *)
Inductive ActivityState := BUSY | INACTIVE | READY | UNKNOWN.

Definition ActivityState_eqb (a b : ActivityState) : bool :=
  match a, b with
  | BUSY, BUSY | INACTIVE, INACTIVE | READY, READY | UNKNOWN, UNKNOWN => true
  | _, _ => false
  end.

(** Exceptions derived from [Exception]; [EnvError] stands for whatever the
    automation, image, file and JSON libraries raise. *)
Inductive exn_kind := ValueError | AttributeError | IndexError | TypeError | EnvError.

Record exn := Exn { exn_class : exn_kind; exn_msg : string }.

(** How a call ends when it does not return: an exception, [SystemExit]
    (which [except Exception] does not catch), or no end within the
    polling iterations allowed. *)
Inductive abort :=
| Raise (e : exn)
| SysExit (code : Z)
| Diverge.

Inductive outcome (A : Type) :=
| Ret (a : A)
| Abort (ab : abort).
Arguments Ret {A} a.
Arguments Abort {A} ab.

(** A value of the JSON configuration, as [save_config] writes them. *)
Inductive jval := JNull | JBool (b : bool) | JStr (s : string).

Definition truthy (v : jval) : bool :=
  match v with
  | JNull => false
  | JBool b => b
  | JStr s => negb (String.eqb s EmptyString)
  end.

(** The namespace [argparse] returns. *)
Record Args := mkArgs {
  arg_prompt : option string;
  arg_bezi_path : option string;
  arg_init : bool;
  arg_debug : bool
}.

(** A descendant control as the enumeration yields it, with what the
    callers read from it right after: the size of [rectangle()] and
    [window_text()]. *)
Record Control := mkControl {
  ctl_id : nat;
  ctl_type : string;
  ctl_width : Z;
  ctl_height : Z;
  ctl_text : string
}.

(** What [send_prompt] returns: [False], or the list of harvested texts. *)
Inductive send_result := SendFailed | Harvested (texts : list string).

(** The second component of what [run] returns. *)
Inductive run_value := VMessage (s : string) | VSend (r : send_result).

(** The calls the program makes to its environment and its outputs, in the
    order of a run.  [EvReading] records the value [get_bezi_state]
    returned; [EvStderr] is a line that a method prints itself, not one of
    the decorator's under [--debug]. *)
Inductive event :=
| EvConnect
| EvStart (path : jval)
| EvDescendants (control_type : option string)
| EvCapture (c : Control)
| EvReading (s : ActivityState)
| EvClick (title : string)
| EvSetFocus
| EvTypeKeys (keys : string)
| EvSetText (c : Control) (text : string)
| EvSleep (secs : Z)
| EvStderr (msg : string)
| EvStdout (v : run_value)
| EvExecState (flags : Z)
| EvJsonDump (file : string)
| EvSaveTimings.

Definition trace := list event.

(** Constants for Windows power management. *)
Definition ES_CONTINUOUS : Z := 0x80000000.
Definition ES_SYSTEM_REQUIRED : Z := 0x00000001.
Definition ES_DISPLAY_REQUIRED : Z := 0x00000002.

Definition default_bezi_path : string := "C:\Program Files\Bezi\Bezi.exe".

(** ** The environment

    The window automation, the screen, the files and the operating system:
    each operation answers from the current world and leaves a new one.
    An operation that can raise answers [inl] of the exception. *)
Class Env := {
  W : Type;
  (** [Application(backend="uia").connect(title="Bezi", ...)] *)
  app_connect : W -> (exn + unit) * W;
  (** [Application(backend="uia").start(path)] *)
  app_start : jval -> W -> (exn + unit) * W;
  (** [bezi_window.descendants(control_type=...)] *)
  win_descendants : option string -> W -> (exn + list Control) * W;
  (** [control.capture_as_image().convert('RGB')] *)
  ctl_capture : Control -> W -> (exn + Image) * W;
  ctl_set_text : Control -> string -> W -> (exn + unit) * W;
  win_type_keys : string -> W -> (exn + unit) * W;
  win_set_focus : W -> (exn + unit) * W;
  (** [bezi_window.child_window(title=..., control_type="Button",
      timeout=5)] followed by [click_input()] *)
  btn_click : string -> W -> (exn + unit) * W;
  time_sleep : Z -> W -> W;
  SetThreadExecutionState : Z -> W -> W;
  (** [Image.open(name).convert('RGB')] *)
  image_open : string -> W -> exn + Image;
  path_exists : string -> W -> bool;
  path_getsize : string -> W -> Z;
  (** [open(name, 'r', encoding='utf-8')] and [read()] *)
  read_text : string -> W -> exn + string;
  (** [open(name, "r")] and [json.load] *)
  json_load : string -> W -> exn + gmap string jval;
  (** [open(name, "w")] and [json.dump] *)
  json_dump : string -> option (gmap string jval) -> W -> (exn + unit) * W;
  (** [perf_logger.save_timings()], which catches its own exceptions *)
  save_timings : W -> W
}.

(** ** The bridge object and the monad of its methods *)

(** The attributes of a [BeziBridge].  A reference image is [None] while its
    attribute has never been assigned.  The window specification
    [bezi_window] lives in the world. *)
Record Bridge := mkBridge {
  bezi_prompt : option string;
  bezi_path : jval;
  args : option Args;
  config : option (gmap string jval);
  ready_icon_inactive : option Image;
  ready_icon_active : option Image;
  ready_icon_busy : option Image
}.

Definition config_file : string := "bezi_bridge.json".
Definition bezi_submit_btn_width : Z := 56.
Definition bezi_submit_btn_height : Z := 56.

Definition with_prompt (p : option string) (b : Bridge) : Bridge :=
  mkBridge p (bezi_path b) (args b) (config b)
    (ready_icon_inactive b) (ready_icon_active b) (ready_icon_busy b).
Definition with_path (p : jval) (b : Bridge) : Bridge :=
  mkBridge (bezi_prompt b) p (args b) (config b)
    (ready_icon_inactive b) (ready_icon_active b) (ready_icon_busy b).
Definition with_args (a : option Args) (b : Bridge) : Bridge :=
  mkBridge (bezi_prompt b) (bezi_path b) a (config b)
    (ready_icon_inactive b) (ready_icon_active b) (ready_icon_busy b).
Definition with_config (c : option (gmap string jval)) (b : Bridge) : Bridge :=
  mkBridge (bezi_prompt b) (bezi_path b) (args b) c
    (ready_icon_inactive b) (ready_icon_active b) (ready_icon_busy b).
Definition with_inactive (i : option Image) (b : Bridge) : Bridge :=
  mkBridge (bezi_prompt b) (bezi_path b) (args b) (config b)
    i (ready_icon_active b) (ready_icon_busy b).
Definition with_active (i : option Image) (b : Bridge) : Bridge :=
  mkBridge (bezi_prompt b) (bezi_path b) (args b) (config b)
    (ready_icon_inactive b) i (ready_icon_busy b).
Definition with_busy (i : option Image) (b : Bridge) : Bridge :=
  mkBridge (bezi_prompt b) (bezi_path b) (args b) (config b)
    (ready_icon_inactive b) (ready_icon_active b) i.

Section Program.

Context {E : Env}.

Record State := mkState {
  world : W;
  self : Bridge
}.

(** A method: from a state to how it ends, the state it leaves and the
    events of the call, oldest first. *)
Definition M (A : Type) : Type := State -> outcome A * State * trace.

Definition ret {A} (a : A) : M A := fun s => (Ret a, s, nil).

Definition bind {A B} (m : M A) (k : A -> M B) : M B :=
  fun s =>
    let '(o, s1, t1) := m s in
    match o with
    | Ret a => let '(o2, s2, t2) := k a s1 in (o2, s2, t1 ++ t2)
    | Abort ab => (Abort ab, s1, t1)
    end.

Definition stop {A} (ab : abort) : M A := fun s => (Abort ab, s, nil).
Definition raise {A} (k : exn_kind) (msg : string) : M A := stop (Raise (Exn k msg)).
(** [exit(code)] *)
Definition sys_exit {A} (code : Z) : M A := stop (SysExit code).

Definition emit (e : event) : M unit := fun s => (Ret tt, s, e :: nil).

Definition gets {A} (f : Bridge -> A) : M A := fun s => (Ret (f (self s)), s, nil).
Definition modify (f : Bridge -> Bridge) : M unit :=
  fun s => (Ret tt, mkState (world s) (f (self s)), nil).

(** A call of the environment that can raise. *)
Definition call {A} (f : W -> (exn + A) * W) : M A :=
  fun s =>
    let '(r, w) := f (world s) in
    (match r with inl e => Abort (Raise e) | inr a => Ret a end,
     mkState w (self s), nil).

(** A call of the environment that reads the world and can raise. *)
Definition query {A} (f : W -> exn + A) : M A :=
  call (fun w => (f w, w)).

(** A call of the environment that does not raise. *)
Definition effect (f : W -> W) : M unit :=
  fun s => (Ret tt, mkState (f (world s)) (self s), nil).

(** [try: body except Exception as e: handler(e)] *)
Definition try_except {A} (body : M A) (handler : exn -> M A) : M A :=
  fun s =>
    let '(o, s1, t1) := body s in
    match o with
    | Abort (Raise e) => let '(o2, s2, t2) := handler e s1 in (o2, s2, t1 ++ t2)
    | _ => (o, s1, t1)
    end.

(** [try: body except: handler], which catches [SystemExit] too. *)
Definition try_except_all {A} (body : M A) (handler : M A) : M A :=
  fun s =>
    let '(o, s1, t1) := body s in
    match o with
    | Abort (Raise _) | Abort (SysExit _) =>
        let '(o2, s2, t2) := handler s1 in (o2, s2, t1 ++ t2)
    | _ => (o, s1, t1)
    end.

(** [try: body finally: cleanup]: the cleanup runs however the body ends,
    and what the body did stands unless the cleanup itself aborts. *)
Definition try_finally {A} (body : M A) (cleanup : M unit) : M A :=
  fun s =>
    let '(o, s1, t1) := body s in
    match o with
    | Abort Diverge => (o, s1, t1)
    | _ =>
        let '(o2, s2, t2) := cleanup s1 in
        (match o2 with Ret _ => o | Abort ab => Abort ab end, s2, t1 ++ t2)
    end.

End Program.

Declare Scope prog_scope.
Delimit Scope prog_scope with prog.
Notation "x <- m ;; k" := (bind m (fun x => k))
  (at level 100, m at next level, right associativity) : prog_scope.
Notation "m ;; k" := (bind m (fun _ => k))
  (at level 100, right associativity) : prog_scope.

(** ** Strings *)

(** A Python string is held as the bytes of its UTF-8 encoding.  The
    white space [str.strip()] removes is, in one byte, the characters 9 to
    13 and 28 to 32; in two bytes, U+0085 and U+00A0; in three bytes,
    U+1680, U+2000 to U+200A, U+2028, U+2029, U+202F, U+205F and U+3000. *)
Definition is_space (c : Ascii.ascii) : bool :=
  let n := Ascii.nat_of_ascii c in
  ((9 <=? n) && (n <=? 13) || (28 <=? n) && (n <=? 32))%nat.

Definition is_space2 (c1 c2 : Ascii.ascii) : bool :=
  let a := Ascii.nat_of_ascii c1 in
  let b := Ascii.nat_of_ascii c2 in
  ((a =? 194) && ((b =? 133) || (b =? 160)))%nat.

Definition is_space3 (c1 c2 c3 : Ascii.ascii) : bool :=
  let a := Ascii.nat_of_ascii c1 in
  let b := Ascii.nat_of_ascii c2 in
  let c := Ascii.nat_of_ascii c3 in
  ((a =? 225) && (b =? 154) && (c =? 128)
   || (a =? 226) && (b =? 128)
      && ((128 <=? c) && (c <=? 138) || (c =? 168) || (c =? 169) || (c =? 175))
   || (a =? 226) && (b =? 129) && (c =? 159)
   || (a =? 227) && (b =? 128) && (c =? 128))%nat.

(** Removes the white space at the front of a list of bytes; [sp2] and
    [sp3] recognise the characters of two and three bytes. *)
Fixpoint strip_front (sp2 : Ascii.ascii -> Ascii.ascii -> bool)
    (sp3 : Ascii.ascii -> Ascii.ascii -> Ascii.ascii -> bool)
    (l : list Ascii.ascii) : list Ascii.ascii :=
  match l with
  | c1 :: l1 =>
      if is_space c1 then strip_front sp2 sp3 l1 else
      match l1 with
      | c2 :: l2 =>
          if sp2 c1 c2 then strip_front sp2 sp3 l2 else
          match l2 with
          | c3 :: l3 => if sp3 c1 c2 c3 then strip_front sp2 sp3 l3 else l
          | nil => l
          end
      | nil => l
      end
  | nil => l
  end.

Definition lstrip (s : string) : string :=
  string_of_list_ascii (strip_front is_space2 is_space3 (list_ascii_of_string s)).

(** Strips the end: the front of the bytes read backwards. *)
Definition rstrip (s : string) : string :=
  string_of_list_ascii
    (List.rev
       (strip_front (fun c2 c1 => is_space2 c1 c2) (fun c3 c2 c1 => is_space3 c1 c2 c3)
          (List.rev (list_ascii_of_string s)))).

Definition py_strip (s : string) : string := rstrip (lstrip s).

(** [not message] for a prompt that is [None] or a string. *)
Definition prompt_falsy (message : option string) : bool :=
  match message with
  | None => true
  | Some EmptyString => true
  | Some _ => false
  end.

(** [a or b] for a command-line string [a] and a configuration value [b]. *)
Definition or_else (a : option string) (b : jval) : jval :=
  match a with
  | Some (String c s) => JStr (String c s)
  | _ => b
  end.

Local Open Scope prog_scope.

Section Methods.

Context {E : Env}.

Definition print_err (msg : string) : M unit := emit (EvStderr msg).

(** [BeziBridge.__init__]: the attributes, then the three reference
    images, each assigned when it has loaded; the first failure is printed
    and leaves the remaining attributes unassigned. *)
Definition bridge_init : M unit :=
  modify (fun _ => mkBridge (Some EmptyString) (JStr EmptyString) None None None None None) ;;
  try_except
    (i <- query (image_open "ref_ready.png") ;;
     modify (with_inactive (Some i)) ;;
     a <- query (image_open "ref_ready_active.png") ;;
     modify (with_active (Some a)) ;;
     b <- query (image_open "ref_busy.png") ;;
     modify (with_busy (Some b)))
    (fun e => print_err ("Error loading reference images: " ++ exn_msg e)).

(** [BeziBridge.set_keep_awake] *)
Definition set_keep_awake (keep_awake : bool) : M unit :=
  if keep_awake then
    let flags := Z.lor (Z.lor ES_CONTINUOUS ES_SYSTEM_REQUIRED) ES_DISPLAY_REQUIRED in
    emit (EvExecState flags) ;; effect (SetThreadExecutionState flags)
  else
    emit (EvExecState ES_CONTINUOUS) ;; effect (SetThreadExecutionState ES_CONTINUOUS).

(** [BeziBridge.find_windows] *)
Definition find_windows : M unit :=
  try_except
    (emit EvConnect ;; call app_connect)
    (fun e =>
       print_err ("Exception connection to Bezi app. " ++ exn_msg e) ;;
       print_err "Attempting to launch exe." ;;
       p <- gets bezi_path ;;
       (if negb (truthy p) then modify (with_path (JStr default_bezi_path)) else ret tt) ;;
       p <- gets bezi_path ;;
       emit (EvStart p) ;; call (app_start p)).

Definition is_submit_button (item : Control) : bool :=
  (ctl_width item =? bezi_submit_btn_width) && (ctl_height item =? bezi_submit_btn_height).

(** [BeziBridge.find_submit_button] *)
Definition find_submit_button : M (option Control) :=
  emit (EvDescendants None) ;;
  all_descendants <- call (win_descendants None) ;;
  ret (List.find is_submit_button all_descendants).

(** [self.<name>] for an attribute that [__init__] may have left
    unassigned. *)
Definition getattr (name : string) (f : Bridge -> option Image) : M Image :=
  v <- gets f ;;
  match v with
  | Some img => ret img
  | None => raise AttributeError ("'BeziBridge' object has no attribute '" ++ name ++ "'")
  end.

(** [BeziBridge.get_button_state] *)
Definition get_button_state (btn_wrapper : Control) : M ActivityState :=
  emit (EvCapture btn_wrapper) ;;
  current_img <- call (ctl_capture btn_wrapper) ;;
  busy <- getattr "ready_icon_busy" ready_icon_busy ;;
  if images_match busy current_img F64.lit_0_90 then ret BUSY else
  inactive <- getattr "ready_icon_inactive" ready_icon_inactive ;;
  if images_match inactive current_img F64.lit_0_90 then ret INACTIVE else
  active <- getattr "ready_icon_active" ready_icon_active ;;
  if images_match active current_img F64.lit_0_90 then ret READY else
  ret UNKNOWN.

(** [BeziBridge.get_bezi_state] *)
Definition get_bezi_state : M ActivityState :=
  find_windows ;;
  button <- find_submit_button ;;
  match button with
  | None => print_err "unable to find submit button" ;; sys_exit 1
  | Some b =>
      state <- get_button_state b ;;
      emit (EvReading state) ;;
      ret state
  end.

(** [BeziBridge.click_button_by_name] *)
Definition click_button_by_name (button_name : string) : M bool :=
  try_except_all
    (emit (EvClick button_name) ;; call (btn_click button_name) ;; ret true)
    (ret false).

(** [BeziBridge.close_dialogs] *)
Definition close_dialogs : M unit :=
  click_button_by_name "Continue" ;;
  find_windows ;;
  click_button_by_name "Keep All" ;;
  find_windows.

Definition sleep (secs : Z) : M unit :=
  emit (EvSleep secs) ;; effect (time_sleep secs).

(** [BeziBridge.new_thread] *)
Definition new_thread : M unit :=
  emit EvSetFocus ;; call win_set_focus ;;
  emit (EvTypeKeys "^T") ;; call (win_type_keys "^T") ;;
  sleep 1 ;;
  find_windows ;;
  close_dialogs.

(** The loop [while "INACTIVE" != self.get_bezi_state(): ...] of
    [send_prompt] (lines 149-151, and again 167-169), for at most [fuel]
    readings. *)
Fixpoint wait_inactive (fuel : nat) : M unit :=
  match fuel with
  | O => stop Diverge
  | S fuel' =>
      state <- get_bezi_state ;;
      if ActivityState_eqb INACTIVE state then ret tt
      else close_dialogs ;; sleep 1 ;; wait_inactive fuel'
  end.

(** [descendants(control_type="Edit")[-1]] *)
Definition last_item (items : list Control) : M Control :=
  match List.rev items with
  | c :: _ => ret c
  | nil => raise IndexError "list index out of range"
  end.

(** [BeziBridge.send_prompt] *)
Definition send_prompt (fuel : nat) (message : option string) : M send_result :=
  if prompt_falsy message then raise ValueError "Empty prompt" else
  wait_inactive fuel ;;
  close_dialogs ;;
  sent <- try_except
    (find_windows ;;
     emit (EvDescendants (Some "Edit")) ;;
     edits <- call (win_descendants (Some "Edit")) ;;
     prompt_box <- last_item edits ;;
     emit (EvSetText prompt_box (default EmptyString message)) ;;
     call (ctl_set_text prompt_box (default EmptyString message)) ;;
     sleep 1 ;;
     emit (EvTypeKeys "{ENTER}") ;; call (win_type_keys "{ENTER}") ;;
     sleep 2 ;;
     ret true)
    (fun e => print_err ("unable to find prompt box: " ++ exn_msg e) ;; ret false) ;;
  if negb sent then ret SendFailed else
  find_windows ;;
  wait_inactive fuel ;;
  close_dialogs ;;
  find_windows ;;
  emit (EvDescendants (Some "Text")) ;;
  elements <- call (win_descendants (Some "Text")) ;;
  ret (Harvested (List.map (fun e => py_strip (ctl_text e)) elements)).

End Methods.

Section Run.

Context {E : Env}.

(** [BeziBridge.load_config] *)
Definition load_config : M (gmap string jval) :=
  fun s =>
    if path_exists config_file (world s) && (0 <? path_getsize config_file (world s))
    then query (json_load config_file) s
    else ret (<["initialized" := JBool false]> (<["bezi_path" := JNull]> ∅)) s.

(** [BeziBridge.save_config] *)
Definition save_config (config : option (gmap string jval)) : M unit :=
  emit (EvJsonDump config_file) ;; call (json_dump config_file config).

(** [BeziBridge.parse_arguments]: [argparse] either leaves the process
    ([SystemExit], on [-h] or on a malformed command line) or returns the
    namespace, which is kept in [self.args]. *)
Definition parse_arguments (cmdline : Z + Args) : M Args :=
  match cmdline with
  | inl code => sys_exit code
  | inr a => modify (with_args (Some a)) ;; ret a
  end.

(** [self.args], [self.config]: [None] has neither attributes nor items. *)
Definition the_args : M Args :=
  a <- gets args ;;
  match a with
  | Some a => ret a
  | None => raise AttributeError "'NoneType' object has no attribute 'init'"
  end.

Definition the_config (msg : string) (k : exn_kind) : M (gmap string jval) :=
  c <- gets config ;;
  match c with
  | Some c => ret c
  | None => raise k msg
  end.

(** [BeziBridge.validate_arguments] *)
Definition validate_arguments : M bool :=
  a <- the_args ;;
  if arg_init a then
    c <- the_config "'NoneType' object does not support item assignment" TypeError ;;
    let c1 := <["initialized" := JBool true]> c in
    let c2 := <["bezi_path" := or_else (arg_bezi_path a) (JStr default_bezi_path)]> c1 in
    modify (with_config (Some c2)) ;;
    modify (with_path (default JNull (c2 !! "bezi_path"))) ;;
    ret true
  else
    c <- the_config "'NoneType' object has no attribute 'get'" AttributeError ;;
    modify (with_path (or_else (arg_bezi_path a) (default JNull (c !! "bezi_path")))) ;;
    match arg_prompt a with
    | Some (String ch rest) =>
        let name := String ch rest in
        fun s =>
          if path_exists name (world s)
          then (text <- query (read_text name) ;;
                modify (with_prompt (Some text)) ;; ret true) s
          else (modify (with_prompt (arg_prompt a)) ;; ret true) s
    | _ => modify (with_prompt (arg_prompt a)) ;; ret true
    end.

(** The statements of [run] inside its [try], up to the call of
    [send_prompt] (lines 256-263): [inl] of the value of an early
    [return], or [inr] to go on. *)
Definition run_setup (cmdline : Z + Args) : M ((bool * run_value) + unit) :=
  c <- load_config ;;
  modify (with_config (Some c)) ;;
  parse_arguments cmdline ;;
  find_windows ;;
  valid <- validate_arguments ;;
  if negb valid then ret (inl (false, VMessage "Invalid Args")) else
  a <- the_args ;;
  if arg_init a then
    c <- gets config ;;
    save_config c ;;
    ret (inl (true, VMessage "Initialization Complete"))
  else
    new_thread ;;
    ret (inr tt).

(** [BeziBridge.run] *)
Definition run (cmdline : Z + Args) (fuel : nat) : M (bool * run_value) :=
  set_keep_awake true ;;
  try_finally
    (early <- run_setup cmdline ;;
     match early with
     | inl r => ret r
     | inr _ =>
         prompt <- gets bezi_prompt ;;
         result <- send_prompt fuel prompt ;;
         ret (true, VSend result)
     end)
    (set_keep_awake false).

(** The script under [if __name__ == "__main__"].  Its statement
    [if args.debug: perf_logger.console_debug = True] only switches on the
    lines that [debug_trace] prints around each call; the events below are
    those of the methods' own statements, so these lines are not among
    them (the decorator is [Perf.debug_trace]). *)
Definition main (cmdline : Z + Args) (fuel : nat) : M unit :=
  bridge_init ;;
  parse_arguments cmdline ;;
  try_finally
    (r <- run cmdline fuel ;;
     let '(success, result) := r in
     if success then emit (EvStdout result) else ret tt)
    (emit EvSaveTimings ;; effect save_timings).

(** The exit status of the interpreter: 0 when the script ends, 1 (with a
    traceback) on an uncaught exception, the code of a [SystemExit]. *)
Definition exit_status {A} (o : outcome A) : option Z :=
  match o with
  | Ret _ => Some 0
  | Abort (Raise _) => Some 1
  | Abort (SysExit code) => Some code
  | Abort Diverge => None
  end.

End Run.

(** ** The stages of a process *)
Section Stages.

Context {E : Env}.

(** The state in which [run] is called: after [__init__] and the parsing
    of a well-formed command line. *)
Definition launch (a : Args) (s : State) : State :=
  snd (fst ((bridge_init ;; parse_arguments (inr a)) s)).

(** The state in which the [try] of [run] starts: the flag is set. *)
Definition awake (s : State) : State :=
  snd (fst (set_keep_awake true s)).

(** Why the edit control was not located, if it was not: the enumeration
    raised, or it found no edit control and [[-1]] raised. *)
Definition lookup_failure (r : exn + list Control) : option string :=
  match r with
  | inl e => Some (exn_msg e)
  | inr nil => Some "list index out of range"
  | inr (_ :: _) => None
  end.

End Stages.

(** ** Reading a trace *)

(** The text-injection events of [send_prompt]: setting the text of the
    edit control and sending Enter. *)
Definition is_injection (e : event) : bool :=
  match e with
  | EvSetText _ _ => true
  | EvTypeKeys keys => String.eqb keys "{ENTER}"
  | _ => false
  end.

(** The most recent reading after the events [tr], when it was [cur]
    before them. *)
Fixpoint reading_after (cur : option ActivityState) (tr : trace) : option ActivityState :=
  match tr with
  | nil => cur
  | EvReading s :: tr' => reading_after (Some s) tr'
  | _ :: tr' => reading_after cur tr'
  end.

Definition reading_is_inactive (cur : option ActivityState) : bool :=
  match cur with
  | Some INACTIVE => true
  | _ => false
  end.

(** Every injection of [tr] happens while the most recent reading is
    [INACTIVE]; [cur] is the reading before [tr]. *)
Fixpoint injections_guarded (cur : option ActivityState) (tr : trace) : bool :=
  match tr with
  | nil => true
  | EvReading s :: tr' => injections_guarded (Some s) tr'
  | e :: tr' =>
      (if is_injection e then reading_is_inactive cur else true)
      && injections_guarded cur tr'
  end.

(** The window acquisitions and the other operations on the user
    interface. *)
Definition is_ui_operation (e : event) : bool :=
  match e with
  | EvConnect | EvStart _ | EvDescendants _ | EvCapture _ | EvClick _
  | EvSetFocus | EvTypeKeys _ | EvSetText _ _ => true
  | _ => false
  end.

(** The events of the polling loop's body: dialog dismissal and the pause
    between two readings. *)
Definition is_polling_body (e : event) : bool :=
  match e with
  | EvClick _ | EvSleep _ => true
  | _ => false
  end.

(** The sleep-inhibition flag after the events [tr], when it was [held]
    before them. *)
Fixpoint awake_after (held : bool) (tr : trace) : bool :=
  match tr with
  | nil => held
  | EvExecState flags :: tr' =>
      awake_after (negb (Z.land flags (Z.lor ES_SYSTEM_REQUIRED ES_DISPLAY_REQUIRED) =? 0)) tr'
  | _ :: tr' => awake_after held tr'
  end.

(** ** A scripted environment

    A window whose descendants are fixed, whose state indicator shows the
    images of a script one capture after the other, and which shows no
    dialog; the reference images are on disk or not. *)
Module Script.

Record world := mkWorld {
  captures : list Image;
  controls : list Control;
  references_on_disk : bool
}.

Definition solid (r g b : Z) : Image := mkImage 1 1 ((r, g, b) :: nil).

Definition ref_busy : Image := solid 200 40 40.
Definition ref_inactive : Image := solid 120 120 120.
Definition ref_active : Image := solid 40 200 40.
Definition other_icon : Image := solid 0 0 0.

Definition no_file : exn := Exn EnvError "No such file or directory".
Definition not_found : exn := Exn EnvError "element not found".

Definition open_image (name : string) (w : world) : exn + Image :=
  if negb (references_on_disk w) then inl no_file
  else if String.eqb name "ref_busy.png" then inr ref_busy
  else if String.eqb name "ref_ready.png" then inr ref_inactive
  else if String.eqb name "ref_ready_active.png" then inr ref_active
  else inl no_file.

Definition descendants (control_type : option string) (w : world) : (exn + list Control) * world :=
  match control_type with
  | None => (inr (controls w), w)
  | Some t => (inr (List.filter (fun c => String.eqb (ctl_type c) t) (controls w)), w)
  end.

Definition capture (c : Control) (w : world) : (exn + Image) * world :=
  match captures w with
  | img :: rest => (inr img, mkWorld rest (controls w) (references_on_disk w))
  | nil => (inl not_found, w)
  end.

#[export] Instance env : Env := {|
  W := world;
  app_connect := fun w => (inr tt, w);
  app_start := fun _ w => (inr tt, w);
  win_descendants := descendants;
  ctl_capture := capture;
  ctl_set_text := fun _ _ w => (inr tt, w);
  win_type_keys := fun _ w => (inr tt, w);
  win_set_focus := fun w => (inr tt, w);
  btn_click := fun _ w => (inl not_found, w);
  time_sleep := fun _ w => w;
  SetThreadExecutionState := fun _ w => w;
  image_open := open_image;
  path_exists := fun _ _ => false;
  path_getsize := fun _ _ => 0;
  read_text := fun _ _ => inl no_file;
  json_load := fun _ _ => inl no_file;
  json_dump := fun _ _ w => (inr tt, w);
  save_timings := fun w => w
|}.

Definition indicator : Control := mkControl 1 "Button" 56 56 EmptyString.
Definition prompt_box : Control := mkControl 2 "Edit" 400 40 EmptyString.
Definition answer : Control := mkControl 3 "Text" 400 300 "  All done. ".
Definition toolbar : Control := mkControl 4 "Pane" 400 24 EmptyString.

(** The bridge before [__init__]. *)
Definition blank : Bridge := mkBridge None JNull None None None None None.

Definition boot (w : world) : State := mkState w blank.

(** The bridge [b] in front of the world [w]. *)
Definition facing (b : Bridge) (w : world) : State := mkState w b.

(** A bridge whose three reference images have loaded. *)
Definition loaded : Bridge :=
  mkBridge (Some EmptyString) (JStr EmptyString) None None
    (Some ref_inactive) (Some ref_active) (Some ref_busy).

Definition say (prompt : string) : Z + Args :=
  inr (mkArgs (Some prompt) None false false).

(** Scenario A of the specification: the indicator shows busy, busy,
    inactive, and after the submission busy, inactive. *)
Definition scenario_A : world :=
  mkWorld (ref_busy :: ref_busy :: ref_inactive :: ref_busy :: ref_inactive :: nil)
    (toolbar :: indicator :: answer :: prompt_box :: nil) true.

(** The window is idle but has no edit control. *)
Definition no_edit_box : world :=
  mkWorld (ref_inactive :: nil) (toolbar :: indicator :: answer :: nil) true.

(** Scenario D: the window has no control of 56 by 56. *)
Definition no_indicator : world :=
  mkWorld nil (toolbar :: answer :: prompt_box :: nil) true.

(** The reference images are missing from the working directory. *)
Definition no_references : world :=
  mkWorld (ref_inactive :: nil) (toolbar :: indicator :: answer :: prompt_box :: nil) false.

End Script.

(** Two references that differ in one channel of one pixel out of four,
    and so both match a capture of the first at 0.90. *)
Module Twins.

Definition busy : Image :=
  mkImage 2 2 ((200, 40, 40) :: (200, 40, 40) :: (200, 40, 40) :: (200, 40, 40) :: nil).
Definition inactive : Image :=
  mkImage 2 2 ((200, 40, 40) :: (200, 40, 40) :: (200, 40, 40) :: (200, 40, 41) :: nil).
Definition active : Image := Script.ref_active.

Definition bridge : Bridge :=
  mkBridge (Some EmptyString) (JStr EmptyString) None None
    (Some inactive) (Some active) (Some busy).

Definition showing_busy : Script.world :=
  Script.mkWorld (busy :: nil) (Script.indicator :: nil) true.

End Twins.

(** The scripted window on a machine that remembers the execution state
    of the thread and counts the timing files written. *)
Module Machine.

Record world := mkWorld {
  ui : Script.world;
  execution_state : Z;
  timing_files : nat
}.

Definition lift {A} (op : Script.world -> A * Script.world) (w : world) : A * world :=
  (fst (op (ui w)), mkWorld (snd (op (ui w))) (execution_state w) (timing_files w)).

Definition env : Env := {|
  W := world;
  app_connect := lift (fun w => (inr tt, w));
  app_start := fun _ => lift (fun w => (inr tt, w));
  win_descendants := fun t => lift (Script.descendants t);
  ctl_capture := fun c => lift (Script.capture c);
  ctl_set_text := fun _ _ => lift (fun w => (inr tt, w));
  win_type_keys := fun _ => lift (fun w => (inr tt, w));
  win_set_focus := lift (fun w => (inr tt, w));
  btn_click := fun _ => lift (fun w => (inl Script.not_found, w));
  time_sleep := fun _ w => w;
  SetThreadExecutionState := fun flags w => mkWorld (ui w) flags (timing_files w);
  image_open := fun name w => Script.open_image name (ui w);
  path_exists := fun _ _ => false;
  path_getsize := fun _ _ => 0;
  read_text := fun _ _ => inl Script.no_file;
  json_load := fun _ _ => inl Script.no_file;
  json_dump := fun _ _ => lift (fun w => (inr tt, w));
  save_timings := fun w => mkWorld (ui w) (execution_state w) (S (timing_files w))
|}.

(** The bridge [b] in front of the window [w], on a machine whose
    execution state is the default one and which has written no timing
    file. *)
Definition facing (b : Bridge) (w : Script.world) : @State env :=
  @mkState env (mkWorld w ES_CONTINUOUS 0) b.

Definition boot (w : Script.world) : @State env := facing Script.blank w.

End Machine.

(** ** The classification in the words of the specification

    The references are tested in a fixed order and the state of the first
    one that matches the capture at 0.90 is the answer; [UNKNOWN] when
    none matches. *)
Definition first_match (refs : list (ActivityState * Image)) (capture : Image) : ActivityState :=
  match List.find (fun r => images_match (snd r) capture F64.lit_0_90) refs with
  | Some r => fst r
  | None => UNKNOWN
  end.

(** The events of [find_windows]: the connection, the launch and the two
    messages in between. *)
Definition is_acquisition (e : event) : bool :=
  match e with
  | EvConnect | EvStart _ | EvStderr _ => true
  | _ => false
  end.

(** No event at all. *)
Definition silent (e : event) : bool := false.

(** ** Judgements on the traces of a method *)

Definition is_reading (e : event) : bool :=
  match e with
  | EvReading _ => true
  | _ => false
  end.

(** An event that neither injects text nor reports a reading. *)
Definition quiet_event (e : event) : bool :=
  negb (is_injection e) && negb (is_reading e).

Section Judgements.

Context {E : Env}.

(** All the events of a call satisfy [p], from every state. *)
Definition emits_only {A} (p : event -> bool) (m : M A) : Prop :=
  forall s, forallb p (snd (m s)) = true.

(** Started when the most recent reading satisfies [pre], the call injects
    only under an [INACTIVE] reading, and when it returns [a] the most
    recent reading satisfies [post a]. *)
Definition guards {A} (m : M A)
    (pre : option ActivityState -> Prop)
    (post : A -> option ActivityState -> Prop) : Prop :=
  forall s cur, pre cur ->
    injections_guarded cur (snd (m s)) = true
    /\ forall a, fst (fst (m s)) = Ret a -> post a (reading_after cur (snd (m s))).

(** [flag] reads the execution state of the thread off the world: it is
    what the last [SetThreadExecutionState] set, and no other operation of
    the environment changes it. *)
Record observes_execution_state (flag : W -> Z) : Prop := {
  flag_set : forall flags w, flag (SetThreadExecutionState flags w) = flags;
  flag_connect : forall w, flag (snd (app_connect w)) = flag w;
  flag_start : forall p w, flag (snd (app_start p w)) = flag w;
  flag_descendants : forall t w, flag (snd (win_descendants t w)) = flag w;
  flag_capture : forall c w, flag (snd (ctl_capture c w)) = flag w;
  flag_set_text : forall c t w, flag (snd (ctl_set_text c t w)) = flag w;
  flag_type_keys : forall k w, flag (snd (win_type_keys k w)) = flag w;
  flag_set_focus : forall w, flag (snd (win_set_focus w)) = flag w;
  flag_click : forall n w, flag (snd (btn_click n w)) = flag w;
  flag_sleep : forall n w, flag (time_sleep n w) = flag w;
  flag_json_dump : forall n c w, flag (snd (json_dump n c w)) = flag w
}.

(** The call leaves what [flag] reads as it found it, from every state and
    however it ends. *)
Definition keeps_flag {A} (flag : W -> Z) (m : M A) : Prop :=
  forall s, flag (world (snd (fst (m s)))) = flag (world s).

End Judgements.

(** ** More ways to read a trace *)

Definition is_sleep (e : event) : bool :=
  match e with
  | EvSleep _ => true
  | _ => false
  end.



(** The events of the polling loop that the protocol counts: a reading
    and the pause after it. *)
Definition is_poll_event (e : event) : bool := is_reading e || is_sleep e.

(** One iteration of the polling loop that goes on: the state read, then
    the pause of one second. *)
Definition waited_round (state : ActivityState) : list event :=
  EvReading state :: EvSleep 1 :: nil.

Definition is_descendants (e : event) : bool :=
  match e with
  | EvDescendants _ => true
  | _ => false
  end.

(** The event on which [find_windows] returns: the connection, or the
    launch. *)
Definition is_window_resolved (e : event) : bool :=
  match e with
  | EvConnect | EvStart _ => true
  | _ => false
  end.

(** An event that is neither a reading nor a pause. *)
Definition calm_event (e : event) : bool :=
  negb (is_reading e) && negb (is_sleep e).

(** An event that is no enumeration of descendants. *)
Definition no_descendants (e : event) : bool := negb (is_descendants e).

(** Every enumeration of descendants in [t] comes right after the window
    was resolved; [fresh] says whether the event before [t] resolved it. *)
Fixpoint enumerations_fresh (fresh : bool) (t : trace) : bool :=
  match t with
  | nil => true
  | e :: t' =>
      (if is_descendants e then fresh else true)
      && enumerations_fresh (is_window_resolved e) t'
  end.

(** Whether the last event of [t] resolved the window ([fresh] when [t] is
    empty). *)
Fixpoint resolved_after (fresh : bool) (t : trace) : bool :=
  match t with
  | nil => fresh
  | e :: t' => resolved_after (is_window_resolved e) t'
  end.

(** The injections [send_prompt] makes for the prompt [msg], at most: the
    text once, then Enter once. *)
Definition injections_of_one_prompt (msg : string) (l : list event) : Prop :=
  l = nil
  \/ (exists box, l = EvSetText box msg :: nil)
  \/ (exists box, l = EvSetText box msg :: EvTypeKeys "{ENTER}" :: nil).

Section Outcomes.

Context {E : Env}.

(** From every state, the way the call ends and its events satisfy [Q]. *)
Definition always {A} (m : M A) (Q : outcome A -> trace -> Prop) : Prop :=
  forall s, Q (fst (fst (m s))) (snd (m s)).

(** Started in any situation, the call enumerates only right after the
    window was resolved. *)
Definition fresh_call {A} (m : M A) : Prop :=
  always m (fun _ t => forall fresh, enumerations_fresh fresh t = true).

(** The same for a call that starts right after the window was resolved. *)
Definition fresh_after {A} (m : M A) : Prop :=
  always m (fun _ t => enumerations_fresh true t = true).

End Outcomes.

(** ** The performance logger and the tracing decorator *)
Module Perf.

(** A row of [timings]: the dictionary with the keys ['timestamp'],
    ['function'] and ['duration']. *)
Record Timing := mkTiming {
  tm_timestamp : string;
  tm_function : string;
  tm_duration : spec_float
}.

(** [PerformanceLogger] *)
Record PerformanceLogger := mkLogger {
  console_debug : bool;
  level : Z;
  timings : list Timing
}.

(** What the logger and the decorator use of their surroundings: the
    clock, the formatting of numbers and the timings file.  [K] is all that
    the traced code works on. *)
Class Clock := {
  K : Type;
  (** [time.perf_counter()] *)
  perf_counter : K -> spec_float * K;
  (** [time.strftime("%Y-%m-%d %H:%M:%S")] *)
  strftime : K -> string;
  (** [round(duration, 6)] *)
  round6 : spec_float -> spec_float;
  (** [f"{duration:.4f}"] *)
  format4 : spec_float -> string;
  (** [os.path.exists("debug_timings.csv")] *)
  timings_exist : K -> bool;
  (** Opening the file for appending, the header when asked for, then the
      rows. *)
  csv_append : bool -> list Timing -> K -> (exn + unit) * K
}.

Section Logger.

Context {C : Clock}.

(** The process as the logger sees it: the surroundings, the global
    [perf_logger] and the lines printed on standard error, oldest first. *)
Record Traced := mkTraced {
  outside : K;
  perf_logger : PerformanceLogger;
  stderr : list string
}.

Definition T (A : Type) : Type := Traced -> outcome A * Traced.

(** ['  ' * level], which is empty for a level that is not positive. *)
Fixpoint spaces (n : nat) : string :=
  match n with
  | O => EmptyString
  | S n' => "  " ++ spaces n'
  end.

Definition indent (level : Z) : string := spaces (Z.to_nat level).

Definition print_stderr (line : string) (s : Traced) : Traced :=
  mkTraced (outside s) (perf_logger s) (stderr s ++ line :: nil).

Definition set_level (l : Z) (s : Traced) : Traced :=
  mkTraced (outside s)
    (mkLogger (console_debug (perf_logger s)) l (timings (perf_logger s)))
    (stderr s).

Definition append_timing (row : Timing) (s : Traced) : Traced :=
  mkTraced (outside s)
    (mkLogger (console_debug (perf_logger s)) (level (perf_logger s))
       (timings (perf_logger s) ++ row :: nil))
    (stderr s).

(** [f"{'  ' * self.level}Entering {name}"] *)
Definition entering_line (l : Z) (name : string) : string :=
  indent l ++ "Entering " ++ name.

(** [f"{'  ' * self.level}Exiting {name} ({duration:.4f}s)"] *)
Definition exiting_line (l : Z) (name duration : string) : string :=
  indent l ++ "Exiting " ++ name ++ " (" ++ duration ++ "s)".

(** [PerformanceLogger.log_entry] *)
Definition log_entry (name : string) (s : Traced) : Traced :=
  let s1 :=
    if console_debug (perf_logger s)
    then print_stderr (entering_line (level (perf_logger s)) name) s
    else s in
  set_level (level (perf_logger s1) + 1) s1.

(** [PerformanceLogger.log_exit] *)
Definition log_exit (name : string) (duration : spec_float) (s : Traced) : Traced :=
  let s1 := set_level (level (perf_logger s) - 1) s in
  let s2 :=
    if console_debug (perf_logger s1)
    then print_stderr (exiting_line (level (perf_logger s1)) name (format4 duration)) s1
    else s1 in
  append_timing (mkTiming (strftime (outside s2)) name (round6 duration)) s2.

(** The call of [time.perf_counter()]. *)
Definition read_clock (s : Traced) : spec_float * Traced :=
  let '(now, k) := perf_counter (outside s) in
  (now, mkTraced k (perf_logger s) (stderr s)).

(** The state in which the wrapped function starts. *)
Definition entered (name : string) (s : Traced) : Traced :=
  snd (read_clock (log_entry name s)).

(** [debug_trace(func)], the wrapper: the entry is logged, the clock read,
    the function called, and in the [finally] the clock is read again and
    the exit logged, however the function ended. *)
Definition debug_trace {A} (name : string) (func : T A) : T A :=
  fun s =>
    let s1 := log_entry name s in
    let '(start, s2) := read_clock s1 in
    let '(o, s3) := func s2 in
    match o with
    | Abort Diverge => (o, s3)
    | _ =>
        let '(stop_, s4) := read_clock s3 in
        let duration := SFsub F64.prec F64.emax stop_ start in
        (o, log_exit name duration s4)
    end.

(** [PerformanceLogger.save_timings] *)
Definition save_timings : T unit :=
  fun s =>
    match timings (perf_logger s) with
    | nil => (Ret tt, s)
    | _ :: _ =>
        let file_exists := timings_exist (outside s) in
        let '(r, k) := csv_append (negb file_exists) (timings (perf_logger s)) (outside s) in
        let s1 := mkTraced k (perf_logger s) (stderr s) in
        match r with
        | inr _ => (Ret tt, print_stderr "Performance timings saved to debug_timings.csv" s1)
        | inl e => (Ret tt, print_stderr ("Failed to save timings: " ++ exn_msg e) s1)
        end
    end.

(** A function that, when it ends, has left the level and the debug flag of
    the logger as they were and has only added rows and lines. *)
Definition keeps_logger {A} (func : T A) : Prop :=
  forall s,
    fst (func s) <> Abort Diverge ->
    level (perf_logger (snd (func s))) = level (perf_logger s)
    /\ console_debug (perf_logger (snd (func s))) = console_debug (perf_logger s)
    /\ (exists rows, timings (perf_logger (snd (func s))) = timings (perf_logger s) ++ rows)
    /\ (exists lines, stderr (snd (func s)) = stderr s ++ lines).

End Logger.

(** A clock that ticks once per reading, and a timings file that can
    always be written. *)
#[export] Instance ticking : Clock := {|
  K := Z;
  perf_counter := fun k => (F64.of_Z k, k + 1);
  strftime := fun _ => "2026-01-01 00:00:00";
  round6 := fun d => d;
  format4 := fun _ => "1.0000";
  timings_exist := fun _ => false;
  csv_append := fun _ _ k => (inr tt, k)
|}.

Definition quiet_start : Traced := mkTraced 0 (mkLogger true 0 nil) nil.

(** A logger that holds one row, with the console trace off. *)
Definition one_row : Traced :=
  mkTraced 0 (mkLogger false 0 (mkTiming "2026-01-01 00:00:00" "run" F64.one :: nil)) nil.

(** A traced function that raises. *)
Definition failing : T unit := fun s => (Abort (Raise (Exn ValueError "Empty prompt")), s).

End Perf.

(** * Properties *)

(** ** Binary64 division of a number by itself *)
Section Binary64.

Lemma new_location_zero (m : Z) : new_location m 0 = loc_Exact.
Proof.
  unfold new_location, new_location_even, new_location_odd.
  destruct (Z.even m); reflexivity.
Qed.

Lemma div_eucl_shifted (m : positive) :
  Z.div_eucl (Z.pos m * 2 ^ 53) (Z.pos m) = (2 ^ 53, 0).
Proof.
  pose proof (Z_div_mod (Z.pos m * 2 ^ 53) (Z.pos m) eq_refl) as H.
  destruct (Z.div_eucl (Z.pos m * 2 ^ 53) (Z.pos m)) as [q r].
  destruct H as [H1 H2].
  assert (q = 2 ^ 53) by nia.
  subst q. f_equal. lia.
Qed.

(** A finite number divided by itself is exactly one. *)
Lemma div_self_finite (s : bool) (m : positive) (e : Z) :
  F64.div (S754_finite s m e) (S754_finite s m e) = F64.one.
Proof.
  unfold F64.div, F64.prec, F64.emax, SFdiv, SFdiv_core_binary.
  replace (Zdigits2 (Z.pos m) + e - (Zdigits2 (Z.pos m) + e)) with 0 by lia.
  replace (e - e) with 0 by lia.
  change (Z.min (fexp 53 1024 0) 0) with (-53).
  change (0 - -53) with 53.
  cbv iota beta.
  rewrite Z.shiftl_mul_pow2 by lia.
  rewrite div_eucl_shifted, new_location_zero.
  destruct s; reflexivity.
Qed.

(** Anything else divided by itself is not a number. *)
Lemma div_self_cases (x : spec_float) :
  F64.div x x = F64.one \/ F64.div x x = S754_nan.
Proof.
  destruct x as [s|s| |s m e].
  - right; reflexivity.
  - right; reflexivity.
  - right; reflexivity.
  - left; apply div_self_finite.
Qed.

Lemma digits2_pos_iter_xO (p k : positive) :
  digits2_pos (Pos.iter xO p k) = (digits2_pos p + k)%positive.
Proof.
  revert p. induction k as [|k IH] using Pos.peano_ind; intros p.
  - simpl. lia.
  - rewrite Pos.iter_succ. simpl. rewrite IH. lia.
Qed.

Lemma digits2_pos_lower (p : positive) :
  2 ^ (Z.pos (digits2_pos p) - 1) <= Z.pos p.
Proof.
  induction p as [p IH|p IH|]; simpl digits2_pos.
  - rewrite Pos2Z.inj_succ.
    replace (Z.succ (Z.pos (digits2_pos p)) - 1)
      with (Z.succ (Z.pos (digits2_pos p) - 1)) by lia.
    rewrite Z.pow_succ_r by lia. lia.
  - rewrite Pos2Z.inj_succ.
    replace (Z.succ (Z.pos (digits2_pos p)) - 1)
      with (Z.succ (Z.pos (digits2_pos p) - 1)) by lia.
    rewrite Z.pow_succ_r by lia. lia.
  - simpl. lia.
Qed.

Lemma digits2_pos_le_53 (p : positive) :
  Z.pos p < 2 ^ 53 -> Z.pos (digits2_pos p) <= 53.
Proof.
  intros H. pose proof (digits2_pos_lower p) as L.
  destruct (Z_le_gt_dec (Z.pos (digits2_pos p)) 53) as [|G]; [assumption|exfalso].
  assert (2 ^ 53 <= 2 ^ (Z.pos (digits2_pos p) - 1)) by (apply Z.pow_le_mono_r; lia).
  lia.
Qed.

(** Rounding leaves a mantissa of 53 bits with a small exponent as it is. *)
Lemma round_aux_canonical (m : positive) (e : Z) :
  Z.pos (digits2_pos m) = 53 -> -52 <= e <= 0 ->
  binary_round_aux 53 1024 false (Z.pos m) e loc_Exact = S754_finite false m e.
Proof.
  intros D B.
  assert (S : shr_fexp 53 1024 (Z.pos m) e loc_Exact
              = ({| shr_m := Z.pos m; shr_r := false; shr_s := false |}, e)).
  { unfold shr_fexp, Zdigits2. rewrite D. unfold fexp, emin.
    replace (Z.max (53 + e - 53) (3 - 1024 - 53) - e) with 0 by lia.
    reflexivity. }
  unfold binary_round_aux. rewrite S.
  cbn [shr_m loc_of_shr_record round_nearest_even].
  rewrite S. cbn [shr_m].
  replace (e <=? 1024 - 53) with true by (symmetry; apply Z.leb_le; lia).
  reflexivity.
Qed.

(** A positive integer below [2^53] converts to a finite number. *)
Lemma of_Z_finite (n : Z) :
  0 < n < 2 ^ 53 -> exists m e, F64.of_Z n = S754_finite false m e.
Proof.
  intros [Hpos Hlt]. destruct n as [|p|p]; try lia.
  unfold F64.of_Z, F64.prec, F64.emax, binary_normalize, binary_round.
  pose proof (digits2_pos_le_53 p Hlt) as D.
  unfold fexp, emin, shl_align.
  replace (Z.max (Z.pos (digits2_pos p) + 0 - 53) (3 - 1024 - 53) - 0)
    with (Z.pos (digits2_pos p) - 53) by lia.
  destruct (Z.pos (digits2_pos p) - 53) as [|q|q] eqn:Q; try lia.
  - eexists _, _. apply round_aux_canonical; lia.
  - replace (Z.max (Z.pos (digits2_pos p) + 0 - 53) (3 - 1024 - 53))
      with (Z.neg q) by lia.
    eexists _, _. apply round_aux_canonical; [|lia].
    rewrite digits2_pos_iter_xO. lia.
Qed.

Lemma div_self_one (n : Z) :
  0 < n < 2 ^ 53 -> F64.div (F64.of_Z n) (F64.of_Z n) = F64.one.
Proof.
  intros H. destruct (of_Z_finite n H) as (m & e & ->).
  apply div_self_finite.
Qed.

End Binary64.

(** ** The fingerprint matcher *)
Section Matcher.

Lemma np_equal_refl (d : list Z) :
  List.filter (fun b => b) (np_equal d d) = np_equal d d
  /\ List.length (np_equal d d) = List.length d.
Proof.
  induction d as [|x d [IH1 IH2]]; simpl.
  - split; reflexivity.
  - rewrite Z.eqb_refl. simpl. rewrite IH1, IH2. split; reflexivity.
Qed.

Lemma count_true_refl (d : list Z) :
  count_true (np_equal d d) = Z.of_nat (List.length (np_equal d d)).
Proof.
  unfold count_true. destruct (np_equal_refl d) as [-> _]. reflexivity.
Qed.

Lemma length_channels (ps : list (Z * Z * Z)) :
  List.length (flat_map channels ps) = (3 * List.length ps)%nat.
Proof.
  induction ps as [|[[r g] b] ps IH]; simpl in *; [reflexivity|].
  rewrite IH. lia.
Qed.

(** The mean of an array compared with itself is a number divided by
    itself. *)
Lemma np_mean_refl (d : list Z) :
  np_mean (np_equal d d)
  = F64.div (F64.of_Z (Z.of_nat (List.length d))) (F64.of_Z (Z.of_nat (List.length d))).
Proof.
  unfold np_mean. rewrite count_true_refl.
  destruct (np_equal_refl d) as [_ ->]. reflexivity.
Qed.

Lemma images_match_refl_eq (img : Image) (t : spec_float) :
  images_match img img t = F64.gtb (np_mean (np_equal (data (np_array img)) (data (np_array img)))) t.
Proof.
  unfold images_match. cbv zeta.
  rewrite bool_decide_eq_false_2; [reflexivity|].
  intros H. apply H. reflexivity.
Qed.

(** C5. Two images whose width or height differ never match, whatever the
    threshold: [images_match] answers [False], it does not raise. *)
Theorem images_match_shape_mismatch (img1 img2 : Image) (threshold : spec_float) :
  img_width img1 <> img_width img2 \/ img_height img1 <> img_height img2 ->
  shape (np_array img1) <> shape (np_array img2)
  /\ images_match img1 img2 threshold = false.
Proof.
  intros H.
  assert (N : shape (np_array img1) <> shape (np_array img2)).
  { simpl. intros E. injection E as Eh Ew. destruct H as [H|H]; contradiction. }
  split; [exact N|].
  unfold images_match. cbv zeta.
  rewrite bool_decide_eq_true_2 by exact N. reflexivity.
Qed.

Lemma images_match_shape_mismatch_witness :
  images_match Script.ref_busy Twins.busy F64.lit_0_90 = false.
Proof.
  apply (images_match_shape_mismatch Script.ref_busy Twins.busy F64.lit_0_90).
  left. simpl. lia.
Defined.

(** C6. A well-formed image matches itself at every threshold below 1.0:
    the fraction of equal elements is exactly 1.0, which exceeds the
    threshold. *)
Theorem images_match_reflexive (img : Image) (t : spec_float) :
  wf_image img = true ->
  F64.ltb t F64.one = true ->
  np_mean (np_equal (data (np_array img)) (data (np_array img))) = F64.one
  /\ images_match img img t = true.
Proof.
  intros WF LT.
  unfold wf_image in WF.
  apply andb_prop in WF as [WF Hsize].
  apply andb_prop in WF as [WF Hh].
  apply andb_prop in WF as [Hlen Hw].
  apply Nat.eqb_eq in Hlen. apply Nat.ltb_lt in Hw, Hh. apply Z.ltb_lt in Hsize.
  assert (M : np_mean (np_equal (data (np_array img)) (data (np_array img))) = F64.one).
  { rewrite np_mean_refl. simpl data. rewrite length_channels.
    apply div_self_one. split; [|exact Hsize].
    rewrite Hlen. nia. }
  split; [exact M|].
  rewrite images_match_refl_eq, M. exact LT.
Qed.

Lemma images_match_reflexive_witness :
  images_match Twins.inactive Twins.inactive F64.lit_0_95 = true.
Proof.
  apply (images_match_reflexive Twins.inactive F64.lit_0_95); reflexivity.
Defined.

(** C10. The comparison with the threshold is strict: at threshold 1.0 no
    image matches itself, since a fraction of 1.0 does not exceed 1.0. *)
Theorem images_match_threshold_one (img : Image) :
  images_match img img F64.one = false.
Proof.
  rewrite images_match_refl_eq, np_mean_refl.
  destruct (div_self_cases (F64.of_Z (Z.of_nat (List.length (data (np_array img))))))
    as [-> | ->]; reflexivity.
Qed.

(** One image, two thresholds. *)
Example images_match_one_identical :
  images_match Script.ref_busy Script.ref_busy F64.one = false
  /\ images_match Script.ref_busy Script.ref_busy F64.lit_0_95 = true.
Proof. split; reflexivity. Qed.

End Matcher.

(** ** Equations of the monad *)
Section Laws.

Context {E : Env}.

Lemma bind_ret {A B} (a : A) (k : A -> M B) (s : State) :
  bind (ret a) k s = k a s.
Proof. unfold bind, ret. destruct (k a s) as [[o s'] t]. reflexivity. Qed.

Lemma bind_gets {A B} (f : Bridge -> A) (k : A -> M B) (s : State) :
  bind (gets f) k s = k (f (self s)) s.
Proof. unfold bind, gets. destruct (k (f (self s)) s) as [[o s'] t]. reflexivity. Qed.

Lemma bind_modify {B} (f : Bridge -> Bridge) (k : unit -> M B) (s : State) :
  bind (modify f) k s = k tt (mkState (world s) (f (self s))).
Proof. unfold bind, modify. destruct (k tt _) as [[o s'] t]. reflexivity. Qed.

Lemma bind_effect {B} (f : W -> W) (k : unit -> M B) (s : State) :
  bind (effect f) k s = k tt (mkState (f (world s)) (self s)).
Proof. unfold bind, effect. destruct (k tt _) as [[o s'] t]. reflexivity. Qed.

Lemma bind_emit {B} (e : event) (k : unit -> M B) (s : State) :
  bind (emit e) k s = let '(o, s', t) := k tt s in (o, s', e :: t).
Proof. reflexivity. Qed.

Lemma bind_stop {A B} (ab : abort) (k : A -> M B) (s : State) :
  bind (stop ab) k s = (Abort ab, s, nil).
Proof. reflexivity. Qed.

Lemma bind_call_ok {A B} (f : W -> (exn + A) * W) (k : A -> M B) (s : State) a w :
  f (world s) = (inr a, w) ->
  bind (call f) k s = k a (mkState w (self s)).
Proof.
  intros H. unfold bind, call. rewrite H.
  destruct (k a _) as [[o s'] t]. reflexivity.
Qed.

Lemma bind_call_err {A B} (f : W -> (exn + A) * W) (k : A -> M B) (s : State) e w :
  f (world s) = (inl e, w) ->
  bind (call f) k s = (Abort (Raise e), mkState w (self s), nil).
Proof. intros H. unfold bind, call. rewrite H. reflexivity. Qed.

Lemma bind_assoc {A B C} (m : M A) (k : A -> M B) (h : B -> M C) (s : State) :
  bind (bind m k) h s = bind m (fun a => bind (k a) h) s.
Proof.
  unfold bind. destruct (m s) as [[[a|ab] s1] t1]; [|reflexivity].
  destruct (k a s1) as [[[b|ab] s2] t2]; [|reflexivity].
  destruct (h b s2) as [[o s3] t3]. rewrite app_assoc. reflexivity.
Qed.

Lemma bind_returns {A B} (m : M A) (k : A -> M B) (s s1 : State) a t1 :
  m s = (Ret a, s1, t1) ->
  bind m k s = let '(o, s2, t2) := k a s1 in (o, s2, t1 ++ t2).
Proof. intros H. unfold bind. rewrite H. reflexivity. Qed.

Lemma bind_aborts {A B} (m : M A) (k : A -> M B) (s s1 : State) ab t1 :
  m s = (Abort ab, s1, t1) ->
  bind m k s = (Abort ab, s1, t1).
Proof. intros H. unfold bind. rewrite H. reflexivity. Qed.

Lemma bind_getattr_some {B} name (f : Bridge -> option Image) (k : Image -> M B) s img :
  f (self s) = Some img ->
  bind (getattr name f) k s = k img s.
Proof.
  intros H. unfold getattr. rewrite bind_assoc, bind_gets, H. apply bind_ret.
Qed.

Lemma bind_getattr_none {B} name (f : Bridge -> option Image) (k : Image -> M B) s :
  f (self s) = None ->
  bind (getattr name f) k s
  = (Abort (Raise (Exn AttributeError
       ("'BeziBridge' object has no attribute '" ++ name ++ "'"))), s, nil).
Proof.
  intros H. unfold getattr. rewrite bind_assoc, bind_gets, H. reflexivity.
Qed.

End Laws.

(** ** The state classifier *)
Section Classifier.

Context {E : Env}.

(** What [get_button_state] does once the capture has succeeded. *)
Lemma get_button_state_captured (btn : Control) (s : State) (cur : Image) (w' : W) :
  ctl_capture btn (world s) = (inr cur, w') ->
  get_button_state btn s =
    let s' := mkState w' (self s) in
    match ready_icon_busy (self s) with
    | None => (Abort (Raise (Exn AttributeError
                 "'BeziBridge' object has no attribute 'ready_icon_busy'")), s', EvCapture btn :: nil)
    | Some busy =>
        if images_match busy cur F64.lit_0_90 then (Ret BUSY, s', EvCapture btn :: nil) else
        match ready_icon_inactive (self s) with
        | None => (Abort (Raise (Exn AttributeError
                     "'BeziBridge' object has no attribute 'ready_icon_inactive'")), s', EvCapture btn :: nil)
        | Some inactive =>
            if images_match inactive cur F64.lit_0_90 then (Ret INACTIVE, s', EvCapture btn :: nil) else
            match ready_icon_active (self s) with
            | None => (Abort (Raise (Exn AttributeError
                         "'BeziBridge' object has no attribute 'ready_icon_active'")), s', EvCapture btn :: nil)
            | Some active =>
                if images_match active cur F64.lit_0_90 then (Ret READY, s', EvCapture btn :: nil)
                else (Ret UNKNOWN, s', EvCapture btn :: nil)
            end
        end
    end.
Proof.
  intros C. cbv zeta.
  unfold get_button_state. rewrite bind_emit, (bind_call_ok _ _ _ _ _ C).
  destruct (ready_icon_busy (self s)) as [busy|] eqn:Hb.
  2: { rewrite bind_getattr_none by exact Hb. reflexivity. }
  rewrite (bind_getattr_some _ _ _ _ busy) by exact Hb.
  destruct (images_match busy cur F64.lit_0_90); [reflexivity|].
  destruct (ready_icon_inactive (self s)) as [inactive|] eqn:Hi.
  2: { rewrite bind_getattr_none by exact Hi. reflexivity. }
  rewrite (bind_getattr_some _ _ _ _ inactive) by exact Hi.
  destruct (images_match inactive cur F64.lit_0_90); [reflexivity|].
  destruct (ready_icon_active (self s)) as [active|] eqn:Ha.
  2: { rewrite bind_getattr_none by exact Ha. reflexivity. }
  rewrite (bind_getattr_some _ _ _ _ active) by exact Ha.
  destruct (images_match active cur F64.lit_0_90); reflexivity.
Qed.

(** C4. With the three references loaded, the capture of the control is
    classified as the first of BUSY, INACTIVE, READY whose reference matches
    it at 0.90: BUSY when both the BUSY and the INACTIVE reference match,
    UNKNOWN when none of the three does. *)
Theorem get_button_state_first_match
    (btn : Control) (s : State) (busy inactive active cur : Image) (w' : W) :
  ready_icon_busy (self s) = Some busy ->
  ready_icon_inactive (self s) = Some inactive ->
  ready_icon_active (self s) = Some active ->
  ctl_capture btn (world s) = (inr cur, w') ->
  let answer := fst (fst (get_button_state btn s)) in
  answer = Ret (first_match ((BUSY, busy) :: (INACTIVE, inactive) :: (READY, active) :: nil) cur)
  /\ (images_match busy cur F64.lit_0_90 = true ->
      images_match inactive cur F64.lit_0_90 = true -> answer = Ret BUSY)
  /\ (images_match busy cur F64.lit_0_90 = false ->
      images_match inactive cur F64.lit_0_90 = false ->
      images_match active cur F64.lit_0_90 = false -> answer = Ret UNKNOWN).
Proof.
  intros Hb Hi Ha C answer. subst answer.
  rewrite (get_button_state_captured btn s cur w' C), Hb, Hi, Ha.
  unfold first_match. cbn [List.find snd fst].
  destruct (images_match busy cur F64.lit_0_90);
    destruct (images_match inactive cur F64.lit_0_90);
    destruct (images_match active cur F64.lit_0_90);
    cbn; repeat split; intros; congruence.
Qed.

End Classifier.

(** A capture that matches the BUSY and the INACTIVE reference at once. *)
Lemma get_button_state_first_match_witness :
  images_match Twins.busy Twins.busy F64.lit_0_90 = true
  /\ images_match Twins.inactive Twins.busy F64.lit_0_90 = true
  /\ fst (fst (get_button_state Script.indicator
                 (Script.facing Twins.bridge Twins.showing_busy))) = Ret BUSY.
Proof.
  split; [reflexivity|]. split; [reflexivity|].
  apply (get_button_state_first_match Script.indicator
           (Script.facing Twins.bridge Twins.showing_busy)
           Twins.busy Twins.inactive Twins.active Twins.busy
           (Script.mkWorld nil (Script.indicator :: nil) true));
    reflexivity.
Defined.

(** ** Reference images that fail to load *)
Section MissingReferences.

Context {E : Env}.

Lemma bridge_init_cases (s : State) :
  let '(o, s1, t) := bridge_init s in
  world s1 = world s /\ o = Ret tt
  /\ match image_open "ref_ready.png" (world s),
           image_open "ref_ready_active.png" (world s),
           image_open "ref_busy.png" (world s) with
     | inr i, inr a, inr b =>
         t = nil /\ ready_icon_inactive (self s1) = Some i
         /\ ready_icon_active (self s1) = Some a /\ ready_icon_busy (self s1) = Some b
     | inl e, _, _ | inr _, inl e, _ | inr _, inr _, inl e =>
         t = EvStderr ("Error loading reference images: " ++ exn_msg e) :: nil
         /\ ready_icon_busy (self s1) = None
     end.
Proof.
  unfold bridge_init. rewrite bind_modify.
  unfold try_except, query, print_err.
  destruct (image_open "ref_ready.png" (world s)) as [e|i] eqn:H1.
  { erewrite bind_call_err by (cbn [world]; rewrite H1; reflexivity).
    cbn. repeat split. }
  erewrite bind_call_ok by (cbn [world]; rewrite H1; reflexivity).
  rewrite bind_modify. cbn [world self].
  destruct (image_open "ref_ready_active.png" (world s)) as [e|a] eqn:H2.
  { erewrite bind_call_err by (cbn [world]; rewrite H2; reflexivity).
    cbn. repeat split. }
  erewrite bind_call_ok by (cbn [world]; rewrite H2; reflexivity).
  rewrite bind_modify. cbn [world self].
  destruct (image_open "ref_busy.png" (world s)) as [e|b] eqn:H3.
  { erewrite bind_call_err by (cbn [world]; rewrite H3; reflexivity).
    cbn. repeat split. }
  erewrite bind_call_ok by (cbn [world]; rewrite H3; reflexivity).
  cbn. repeat split.
Qed.

(** C7, as the code has it. When one of the three reference images fails
    to load, [__init__] prints the failure and returns, but the attribute
    [ready_icon_busy] is never assigned: every later classification whose
    capture succeeds raises [AttributeError]; none answers [UNKNOWN]. *)
Theorem missing_references_raise (s : State) (e : exn) :
  image_open "ref_ready.png" (world s) = inl e
  \/ image_open "ref_ready_active.png" (world s) = inl e
  \/ image_open "ref_busy.png" (world s) = inl e ->
  let '(o, s1, t) := bridge_init s in
  o = Ret tt
  /\ (exists e', t = EvStderr ("Error loading reference images: " ++ exn_msg e') :: nil)
  /\ forall (w w' : W) (btn : Control) (cur : Image),
       ctl_capture btn w = (inr cur, w') ->
       fst (fst (get_button_state btn (mkState w (self s1))))
       = Abort (Raise (Exn AttributeError
           "'BeziBridge' object has no attribute 'ready_icon_busy'"))
       /\ fst (fst (get_button_state btn (mkState w (self s1)))) <> Ret UNKNOWN.
Proof.
  intros H. pose proof (bridge_init_cases s) as B.
  destruct (bridge_init s) as [[o s1] t].
  destruct B as (_ & Ho & B).
  assert (F : (exists e', t = EvStderr ("Error loading reference images: " ++ exn_msg e') :: nil)
              /\ ready_icon_busy (self s1) = None).
  { destruct (image_open "ref_ready.png" (world s)) as [e1|i].
    { destruct B as [-> ->]. split; [eexists; reflexivity|reflexivity]. }
    destruct (image_open "ref_ready_active.png" (world s)) as [e2|a].
    { destruct B as [-> ->]. split; [eexists; reflexivity|reflexivity]. }
    destruct (image_open "ref_busy.png" (world s)) as [e3|b].
    { destruct B as [-> ->]. split; [eexists; reflexivity|reflexivity]. }
    destruct H as [H|[H|H]]; discriminate H. }
  destruct F as [Ft Fb].
  split; [exact Ho|]. split; [exact Ft|].
  intros w w' btn cur C.
  rewrite (get_button_state_captured btn (mkState w (self s1)) cur w') by exact C.
  cbn [self]. rewrite Fb. cbn. split; [reflexivity|discriminate].
Qed.

End MissingReferences.

(** With the reference images missing, the capture of an idle indicator is
    not classified: the call raises. *)
Lemma missing_references_raise_witness :
  fst (fst (get_button_state Script.indicator
              (Script.facing
                 (self (snd (fst (bridge_init (Script.boot Script.no_references)))))
                 Script.no_references)))
  = Abort (Raise (Exn AttributeError
      "'BeziBridge' object has no attribute 'ready_icon_busy'")).
Proof.
  pose proof (missing_references_raise (Script.boot Script.no_references)
                Script.no_file (or_introl eq_refl)) as H.
  destruct (bridge_init (Script.boot Script.no_references)) as [[o s1] t].
  destruct H as (_ & _ & H).
  apply (H Script.no_references
           (Script.mkWorld nil (Script.controls Script.no_references) false)
           Script.indicator Script.ref_inactive).
  reflexivity.
Defined.

(** The whole process on that input: the run ends on the uncaught
    [AttributeError], with exit status 1. *)
Example missing_references_process :
  let '(o, _, t) := main (Script.say "Hello") 5 (Script.boot Script.no_references) in
  o = Abort (Raise (Exn AttributeError
        "'BeziBridge' object has no attribute 'ready_icon_busy'"))
  /\ exit_status o = Some 1
  /\ List.existsb is_reading t = false.
Proof. vm_compute. repeat split. Qed.

(** ** Traces *)
Section Traces.

Lemma reading_after_app (cur : option ActivityState) (t1 t2 : trace) :
  reading_after cur (t1 ++ t2) = reading_after (reading_after cur t1) t2.
Proof.
  revert cur. induction t1 as [|e t1 IH]; intros cur; [reflexivity|].
  destruct e; simpl; apply IH.
Qed.

Lemma injections_guarded_app (cur : option ActivityState) (t1 t2 : trace) :
  injections_guarded cur (t1 ++ t2)
  = injections_guarded cur t1 && injections_guarded (reading_after cur t1) t2.
Proof.
  revert cur. induction t1 as [|e t1 IH]; intros cur; [reflexivity|].
  destruct e; simpl; rewrite ?IH, ?andb_assoc; reflexivity.
Qed.

Lemma quiet_trace (cur : option ActivityState) (t : trace) :
  forallb quiet_event t = true ->
  injections_guarded cur t = true /\ reading_after cur t = cur.
Proof.
  induction t as [|e t IH]; intros H; [split; reflexivity|].
  simpl in H. apply andb_prop in H as [He Ht]. specialize (IH Ht) as [IH1 IH2].
  unfold quiet_event in He. apply andb_prop in He as [Hi Hr].
  destruct e; simpl in *; try discriminate; rewrite ?IH1, ?IH2;
    try (split; reflexivity).
  destruct (String.eqb keys "{ENTER}"); [discriminate|]. split; reflexivity.
Qed.

(** An injection anywhere in a guarded trace comes under an [INACTIVE]
    reading. *)
Lemma injections_guarded_at (cur : option ActivityState) (before after : trace) (e : event) :
  injections_guarded cur (before ++ e :: after) = true ->
  is_injection e = true ->
  reading_after cur before = Some INACTIVE.
Proof.
  rewrite injections_guarded_app. intros H I.
  apply andb_prop in H as [_ H].
  destruct e; simpl in *; try discriminate.
  - rewrite I in H. apply andb_prop in H as [H _].
    destruct (reading_after cur before) as [[]|]; simpl in H; congruence.
  - apply andb_prop in H as [H _].
    destruct (reading_after cur before) as [[]|]; simpl in H; congruence.
Qed.

Lemma awake_after_app (held : bool) (t1 t2 : trace) :
  awake_after held (t1 ++ t2) = awake_after (awake_after held t1) t2.
Proof.
  revert held. induction t1 as [|e t1 IH]; intros held; [reflexivity|].
  destruct e; simpl; apply IH.
Qed.

End Traces.

(** ** Rules for the judgements *)
Section Rules.

Context {E : Env}.

Lemma emits_only_weaken {A} (p q : event -> bool) (m : M A) :
  (forall e, p e = true -> q e = true) -> emits_only p m -> emits_only q m.
Proof.
  intros I H s. specialize (H s). rewrite forallb_forall in *. auto.
Qed.

Lemma emits_only_ret {A} p (a : A) : emits_only p (ret a).
Proof. intros s. reflexivity. Qed.

Lemma emits_only_stop {A} p ab : emits_only p (@stop E A ab).
Proof. intros s. reflexivity. Qed.

Lemma emits_only_gets {A} p (f : Bridge -> A) : emits_only p (gets f).
Proof. intros s. reflexivity. Qed.

Lemma emits_only_modify p f : emits_only p (modify f).
Proof. intros s. reflexivity. Qed.

Lemma emits_only_effect p f : emits_only p (effect f).
Proof. intros s. reflexivity. Qed.

Lemma emits_only_call {A} p (f : W -> (exn + A) * W) : emits_only p (call f).
Proof. intros s. unfold call. destruct (f (world s)) as [r w]. reflexivity. Qed.

Lemma emits_only_emit (p : event -> bool) e : p e = true -> emits_only p (emit e).
Proof. intros H s. simpl. rewrite H. reflexivity. Qed.

Lemma emits_only_bind {A B} p (m : M A) (k : A -> M B) :
  emits_only p m -> (forall a, emits_only p (k a)) -> emits_only p (bind m k).
Proof.
  intros Hm Hk s. unfold bind. specialize (Hm s).
  destruct (m s) as [[[a|ab] s1] t1]; simpl in *; [|exact Hm].
  specialize (Hk a s1). destruct (k a s1) as [[o2 s2] t2]; simpl in *.
  rewrite forallb_app, Hm, Hk. reflexivity.
Qed.

Lemma emits_only_try_except {A} p (body : M A) handler :
  emits_only p body -> (forall e, emits_only p (handler e)) ->
  emits_only p (try_except body handler).
Proof.
  intros Hm Hk s. unfold try_except. specialize (Hm s).
  destruct (body s) as [[[a|[e|c|]] s1] t1]; simpl in *; try exact Hm.
  specialize (Hk e s1). destruct (handler e s1) as [[o2 s2] t2]; simpl in *.
  rewrite forallb_app, Hm, Hk. reflexivity.
Qed.

Lemma emits_only_try_except_all {A} p (body handler : M A) :
  emits_only p body -> emits_only p handler ->
  emits_only p (try_except_all body handler).
Proof.
  intros Hm Hk s. unfold try_except_all. specialize (Hm s).
  destruct (body s) as [[[a|[e|c|]] s1] t1]; simpl in *; try exact Hm;
    specialize (Hk s1); destruct (handler s1) as [[o2 s2] t2]; simpl in *;
    rewrite forallb_app, Hm, Hk; reflexivity.
Qed.

Lemma guards_weaken {A} (m : M A) (pre pre' : option ActivityState -> Prop)
    (post post' : A -> option ActivityState -> Prop) :
  (forall cur, pre' cur -> pre cur) ->
  (forall a cur, post a cur -> post' a cur) ->
  guards m pre post -> guards m pre' post'.
Proof.
  intros Hpre Hpost G s cur P. destruct (G s cur (Hpre cur P)) as [G1 G2].
  split; [exact G1|]. intros a Ha. apply Hpost, G2, Ha.
Qed.

(** A call without injection and without reading keeps whatever holds of
    the most recent reading. *)
Lemma guards_quiet {A} (m : M A) (pre : option ActivityState -> Prop) :
  emits_only quiet_event m -> guards m pre (fun _ => pre).
Proof.
  intros Q s cur P. destruct (quiet_trace cur _ (Q s)) as [G R].
  split; [exact G|]. intros a _. rewrite R. exact P.
Qed.

Lemma guards_bind {A B} (m : M A) (k : A -> M B) pre mid post :
  guards m pre mid -> (forall a, guards (k a) (mid a) post) ->
  guards (bind m k) pre post.
Proof.
  intros Gm Gk s cur P. specialize (Gm s cur P) as [G1 G2].
  unfold bind. destruct (m s) as [[[a|ab] s1] t1]; simpl in *.
  - specialize (Gk a s1 (reading_after cur t1) (G2 a eq_refl)) as [G3 G4].
    destruct (k a s1) as [[o2 s2] t2]; simpl in *.
    rewrite injections_guarded_app, G1, G3, reading_after_app.
    split; [reflexivity|exact G4].
  - split; [exact G1|]. intros a Ha. discriminate Ha.
Qed.

Lemma guards_bind_quiet {A B} (m : M A) (k : A -> M B) pre post :
  emits_only quiet_event m -> (forall a, guards (k a) pre post) ->
  guards (bind m k) pre post.
Proof.
  intros Q Gk. apply (guards_bind m k pre (fun _ => pre) post); [|exact Gk].
  apply guards_quiet, Q.
Qed.

(** The handler starts after any part of the body, so it must be guarded
    whatever the reading is. *)
Lemma guards_try_except {A} (body : M A) handler pre post :
  guards body pre post ->
  (forall e, guards (handler e) (fun _ => True) post) ->
  guards (try_except body handler) pre post.
Proof.
  intros Gm Gk s cur P. specialize (Gm s cur P) as [G1 G2].
  unfold try_except. destruct (body s) as [[[a|[e|c|]] s1] t1]; simpl in *;
    try (split; [exact G1|exact G2]).
  specialize (Gk e s1 (reading_after cur t1) I) as [G3 G4].
  destruct (handler e s1) as [[o2 s2] t2]; simpl in *.
  rewrite injections_guarded_app, G1, G3, reading_after_app.
  split; [reflexivity|exact G4].
Qed.

(** An injection is guarded when the reading is known to be [INACTIVE]. *)
Lemma guards_inject (e : event) :
  is_reading e = false ->
  guards (emit e) (fun cur => cur = Some INACTIVE) (fun _ cur => cur = Some INACTIVE).
Proof.
  intros R s cur ->. simpl. split.
  - destruct e; simpl; try reflexivity. destruct (String.eqb keys "{ENTER}"); reflexivity.
  - intros _ _. destruct e; try reflexivity. discriminate R.
Qed.

End Rules.

(** ** The events of the helper methods *)

Ltac emits :=
  repeat first
    [ apply emits_only_bind; [|intros ?]
    | apply emits_only_try_except; [|intros ?]
    | apply emits_only_try_except_all
    | apply emits_only_ret
    | apply emits_only_stop
    | apply emits_only_gets
    | apply emits_only_modify
    | apply emits_only_effect
    | apply emits_only_call
    | apply emits_only_emit; reflexivity
    | match goal with
      | |- emits_only _ (if ?b then _ else _) => destruct b
      | |- emits_only _ (match ?x with _ => _ end) => destruct x
      end ].

Section Helpers.

Context {E : Env}.

Lemma find_windows_events : emits_only is_acquisition find_windows.
Proof. unfold find_windows, print_err. emits. Qed.

Lemma find_windows_quiet : emits_only quiet_event find_windows.
Proof.
  apply (emits_only_weaken is_acquisition); [|apply find_windows_events].
  intros [] H; try discriminate H; reflexivity.
Qed.

Lemma find_submit_button_quiet : emits_only quiet_event find_submit_button.
Proof. unfold find_submit_button. emits. Qed.

Lemma get_button_state_quiet btn : emits_only quiet_event (get_button_state btn).
Proof. unfold get_button_state, getattr, raise. emits. Qed.

Lemma click_button_by_name_quiet name : emits_only quiet_event (click_button_by_name name).
Proof. unfold click_button_by_name. emits. Qed.

Lemma close_dialogs_quiet : emits_only quiet_event close_dialogs.
Proof.
  unfold close_dialogs.
  repeat first [ apply emits_only_bind; [|intros ?]
               | apply click_button_by_name_quiet
               | apply find_windows_quiet ].
Qed.

Lemma sleep_quiet secs : emits_only quiet_event (sleep secs).
Proof. unfold sleep. emits. Qed.

Lemma last_item_quiet items : emits_only quiet_event (last_item items).
Proof. unfold last_item, raise. emits. Qed.

(** A reading that is returned is the most recent one. *)
Lemma get_bezi_state_reading :
  guards get_bezi_state (fun _ => True) (fun state cur => cur = Some state).
Proof.
  unfold get_bezi_state.
  apply guards_bind_quiet; [apply find_windows_quiet|intros _].
  apply guards_bind_quiet; [apply find_submit_button_quiet|intros [b|]].
  - apply guards_bind_quiet; [apply get_button_state_quiet|intros state].
    intros s cur _. cbn. split; [reflexivity|].
    intros a [= <-]. reflexivity.
  - intros s cur _. cbn. split; [reflexivity|]. intros a H. discriminate H.
Qed.

(** The polling loop returns only under an [INACTIVE] reading, and injects
    nothing. *)
Lemma wait_inactive_reading (fuel : nat) :
  guards (wait_inactive fuel) (fun _ => True) (fun _ cur => cur = Some INACTIVE).
Proof.
  induction fuel as [|fuel IH].
  - intros s cur _. cbn. split; [reflexivity|]. intros a H. discriminate H.
  - cbn [wait_inactive].
    apply (guards_bind _ _ _ (fun state cur => cur = Some state));
      [apply get_bezi_state_reading|intros state].
    destruct state; cbn [ActivityState_eqb].
    2: { intros s cur ->. cbn. split; [reflexivity|]. intros _ _. reflexivity. }
    all: apply (guards_weaken _ (fun _ => True) _ (fun _ cur => cur = Some INACTIVE));
      [intros; exact I|intros a cur H; exact H|].
    all: apply guards_bind_quiet; [apply close_dialogs_quiet|intros _].
    all: apply guards_bind_quiet; [apply sleep_quiet|intros _].
    all: exact IH.
Qed.

(** The submission step: started under an [INACTIVE] reading, its two
    injections are guarded. *)
Lemma submission_guarded (message : string) :
  guards
    (find_windows ;;
     emit (EvDescendants (Some "Edit")) ;;
     edits <- call (win_descendants (Some "Edit")) ;;
     prompt_box <- last_item edits ;;
     emit (EvSetText prompt_box message) ;;
     call (ctl_set_text prompt_box message) ;;
     sleep 1 ;;
     emit (EvTypeKeys "{ENTER}") ;; call (win_type_keys "{ENTER}") ;;
     sleep 2 ;;
     ret true)
    (fun cur => cur = Some INACTIVE) (fun _ _ => True).
Proof.
  apply guards_bind_quiet; [apply find_windows_quiet|intros _].
  apply guards_bind_quiet; [emits|intros _].
  apply guards_bind_quiet; [emits|intros edits].
  apply guards_bind_quiet; [apply last_item_quiet|intros prompt_box].
  apply (guards_bind _ _ _ (fun _ cur => cur = Some INACTIVE));
    [apply guards_inject; reflexivity|intros _].
  apply guards_bind_quiet; [emits|intros _].
  apply guards_bind_quiet; [apply sleep_quiet|intros _].
  apply (guards_bind _ _ _ (fun _ cur => cur = Some INACTIVE));
    [apply guards_inject; reflexivity|intros _].
  apply guards_bind_quiet; [emits|intros _].
  apply guards_bind_quiet; [apply sleep_quiet|intros _].
  apply (guards_weaken _ (fun cur => cur = Some INACTIVE) _ (fun _ cur => cur = Some INACTIVE));
    [auto|auto|].
  apply guards_quiet. emits.
Qed.

Lemma send_prompt_guarded (fuel : nat) (message : option string) :
  guards (send_prompt fuel message) (fun _ => True) (fun _ _ => True).
Proof.
  unfold send_prompt. destruct (prompt_falsy message).
  { apply (guards_quiet _ (fun _ => True)). unfold raise. emits. }
  apply (guards_bind _ _ _ (fun _ cur => cur = Some INACTIVE));
    [apply wait_inactive_reading|intros _].
  apply guards_bind_quiet; [apply close_dialogs_quiet|intros _].
  apply (guards_bind _ _ _ (fun _ _ => True)).
  { apply guards_try_except; [apply submission_guarded|intros e].
    apply (guards_quiet _ (fun _ => True)). unfold print_err. emits. }
  intros sent. destruct sent; cbn [negb].
  2: { apply (guards_quiet _ (fun _ => True)). emits. }
  apply guards_bind_quiet; [apply find_windows_quiet|intros _].
  apply (guards_bind _ _ _ (fun _ _ => True)).
  { apply (guards_weaken _ (fun _ => True) _ (fun _ cur => cur = Some INACTIVE));
      [auto|auto|apply wait_inactive_reading]. }
  intros _.
  apply guards_bind_quiet; [apply close_dialogs_quiet|intros _].
  apply guards_bind_quiet; [apply find_windows_quiet|intros _].
  apply (guards_quiet _ (fun _ => True)). emits.
Qed.

(** C1. In every execution of [send_prompt], for however many polling
    iterations it is followed, each text injection (setting the text of the
    edit control, sending Enter) is preceded by a reading of the state, and
    the most recent reading before it is [INACTIVE]. *)
Theorem send_prompt_injects_only_when_inactive
    (fuel : nat) (message : option string) (s : State)
    (before after : trace) (e : event) :
  snd (send_prompt fuel message s) = before ++ e :: after ->
  is_injection e = true ->
  reading_after None before = Some INACTIVE.
Proof.
  intros T I.
  destruct (send_prompt_guarded fuel message s None) as [G _]; [exact Logic.I|].
  rewrite T in G. exact (injections_guarded_at None before after e G I).
Qed.

End Helpers.

(** Scenario A: the text is set at the 29th event of the submission, under
    the third reading, which is the first [INACTIVE] one. *)
Lemma send_prompt_injects_only_when_inactive_witness :
  let t := snd (send_prompt 5 (Some "Hello") (Script.facing Script.loaded Script.scenario_A)) in
  nth 28 t EvConnect = EvSetText Script.prompt_box "Hello"
  /\ reading_after None (firstn 28 t) = Some INACTIVE.
Proof.
  split; [reflexivity|].
  apply (send_prompt_injects_only_when_inactive 5 (Some "Hello")
           (Script.facing Script.loaded Script.scenario_A)
           (firstn 28 (snd (send_prompt 5 (Some "Hello")
                              (Script.facing Script.loaded Script.scenario_A))))
           (skipn 29 (snd (send_prompt 5 (Some "Hello")
                             (Script.facing Script.loaded Script.scenario_A))))
           (EvSetText Script.prompt_box "Hello"));
    reflexivity.
Defined.

(** ** The sleep-inhibition flag *)
Section KeepAwake.

Context {E : Env}.

(** The cleanup of [run] after a body that ends. *)
Lemma try_finally_release {A} (body : M A) (s : State) :
  fst (fst (body s)) <> Abort Diverge ->
  fst (fst (try_finally body (set_keep_awake false) s)) = fst (fst (body s))
  /\ snd (try_finally body (set_keep_awake false) s)
     = snd (body s) ++ EvExecState ES_CONTINUOUS :: nil.
Proof.
  intros H. unfold try_finally.
  destruct (body s) as [[[a|[e|c|]] s1] t1]; cbn in *;
    try (split; reflexivity).
  contradiction H. reflexivity.
Qed.

Lemma run_unfold (cmdline : Z + Args) (fuel : nat) (s : State) :
  let keep := Z.lor (Z.lor ES_CONTINUOUS ES_SYSTEM_REQUIRED) ES_DISPLAY_REQUIRED in
  let body :=
    (early <- run_setup cmdline ;;
     match early with
     | inl r => ret r
     | inr _ =>
         prompt <- gets bezi_prompt ;;
         result <- send_prompt fuel prompt ;;
         ret (true, VSend result)
     end) in
  run cmdline fuel s
  = let '(o, s', t) :=
      try_finally body (set_keep_awake false)
        (mkState (SetThreadExecutionState keep (world s)) (self s)) in
    (o, s', EvExecState keep :: t).
Proof.
  cbv zeta. unfold run. cbn [set_keep_awake].
  rewrite bind_assoc, bind_emit, bind_effect. reflexivity.
Qed.

(** *** What the other calls do to the execution state: nothing *)

Lemma keeps_flag_ret {A} flag (a : A) : keeps_flag flag (ret a).
Proof. intros s. reflexivity. Qed.

Lemma keeps_flag_stop {A} flag ab : keeps_flag flag (@stop E A ab).
Proof. intros s. reflexivity. Qed.

Lemma keeps_flag_gets {A} flag (f : Bridge -> A) : keeps_flag flag (gets f).
Proof. intros s. reflexivity. Qed.

Lemma keeps_flag_modify flag f : keeps_flag flag (modify f).
Proof. intros s. reflexivity. Qed.

Lemma keeps_flag_emit flag e : keeps_flag flag (emit e).
Proof. intros s. reflexivity. Qed.

Lemma keeps_flag_effect flag (f : W -> W) :
  (forall w, flag (f w) = flag w) -> keeps_flag flag (effect f).
Proof. intros H s. apply H. Qed.

Lemma keeps_flag_call {A} flag (f : W -> (exn + A) * W) :
  (forall w, flag (snd (f w)) = flag w) -> keeps_flag flag (call f).
Proof.
  intros H s. unfold call. specialize (H (world s)).
  destruct (f (world s)) as [r w]. exact H.
Qed.

Lemma keeps_flag_query {A} flag (f : W -> exn + A) : keeps_flag flag (query f).
Proof. apply keeps_flag_call. intros w. reflexivity. Qed.

Lemma keeps_flag_bind {A B} flag (m : M A) (k : A -> M B) :
  keeps_flag flag m -> (forall a, keeps_flag flag (k a)) -> keeps_flag flag (bind m k).
Proof.
  intros Hm Hk s. unfold bind. specialize (Hm s).
  destruct (m s) as [[[a|ab] s1] t1]; cbn [fst snd] in *; [|exact Hm].
  specialize (Hk a s1). destruct (k a s1) as [[o2 s2] t2]. cbn [fst snd] in *.
  congruence.
Qed.

Lemma keeps_flag_try_except {A} flag (body : M A) handler :
  keeps_flag flag body -> (forall e, keeps_flag flag (handler e)) ->
  keeps_flag flag (try_except body handler).
Proof.
  intros Hb Hh s. unfold try_except. specialize (Hb s).
  destruct (body s) as [[[a|[e|c|]] s1] t1]; cbn [fst snd] in *; try exact Hb.
  specialize (Hh e s1). destruct (handler e s1) as [[o2 s2] t2]. cbn [fst snd] in *.
  congruence.
Qed.

Lemma keeps_flag_try_except_all {A} flag (body handler : M A) :
  keeps_flag flag body -> keeps_flag flag handler ->
  keeps_flag flag (try_except_all body handler).
Proof.
  intros Hb Hh s. unfold try_except_all. specialize (Hb s).
  destruct (body s) as [[[a|[e|c|]] s1] t1]; cbn [fst snd] in *; try exact Hb.
  all: specialize (Hh s1); destruct (handler s1) as [[o2 s2] t2]; cbn [fst snd] in *;
    congruence.
Qed.

Lemma keeps_flag_branch {A} flag (c : State -> bool) (m1 m2 : M A) :
  keeps_flag flag m1 -> keeps_flag flag m2 ->
  keeps_flag flag (fun s => if c s then m1 s else m2 s).
Proof. intros H1 H2 s. destruct (c s); [apply H1|apply H2]. Qed.

End KeepAwake.

Ltac keeps O :=
  repeat first
    [ apply keeps_flag_bind; [|intros ?]
    | apply keeps_flag_try_except; [|intros ?]
    | apply keeps_flag_try_except_all
    | apply keeps_flag_ret
    | apply keeps_flag_stop
    | apply keeps_flag_gets
    | apply keeps_flag_modify
    | apply keeps_flag_emit
    | apply keeps_flag_query
    | apply keeps_flag_effect; intros; apply O
    | apply keeps_flag_call; intros; apply O
    | match goal with
      | |- keeps_flag _ (if ?b then _ else _) => destruct b
      | |- keeps_flag _ (match ?x with _ => _ end) => destruct x
      end ].

Section ExecutionState.

Context {E : Env}.
Variable flag : W -> Z.
Hypothesis O : observes_execution_state flag.

Lemma find_windows_keeps_flag : keeps_flag flag find_windows.
Proof. unfold find_windows, print_err. keeps O. Qed.

Lemma close_dialogs_keeps_flag : keeps_flag flag close_dialogs.
Proof.
  unfold close_dialogs, click_button_by_name.
  apply keeps_flag_bind; [keeps O|intros _].
  apply keeps_flag_bind; [apply find_windows_keeps_flag|intros _].
  apply keeps_flag_bind; [keeps O|intros _].
  apply find_windows_keeps_flag.
Qed.

Lemma sleep_keeps_flag secs : keeps_flag flag (sleep secs).
Proof. unfold sleep. keeps O. Qed.

Lemma get_bezi_state_keeps_flag : keeps_flag flag get_bezi_state.
Proof.
  unfold get_bezi_state, find_submit_button, get_button_state, getattr, print_err,
    sys_exit, raise.
  apply keeps_flag_bind; [apply find_windows_keeps_flag|intros _].
  keeps O.
Qed.

Lemma wait_inactive_keeps_flag (fuel : nat) : keeps_flag flag (wait_inactive fuel).
Proof.
  induction fuel as [|fuel IH]; cbn [wait_inactive]; [keeps O|].
  apply keeps_flag_bind; [apply get_bezi_state_keeps_flag|intros state].
  destruct (ActivityState_eqb INACTIVE state); [keeps O|].
  apply keeps_flag_bind; [apply close_dialogs_keeps_flag|intros _].
  apply keeps_flag_bind; [apply sleep_keeps_flag|intros _]. exact IH.
Qed.

Lemma send_prompt_keeps_flag fuel message : keeps_flag flag (send_prompt fuel message).
Proof.
  unfold send_prompt, raise.
  destruct (prompt_falsy message); [keeps O|].
  apply keeps_flag_bind; [apply wait_inactive_keeps_flag|intros _].
  apply keeps_flag_bind; [apply close_dialogs_keeps_flag|intros _].
  apply keeps_flag_bind.
  { apply keeps_flag_try_except; [|intros e; unfold print_err; keeps O].
    apply keeps_flag_bind; [apply find_windows_keeps_flag|intros _].
    apply keeps_flag_bind; [keeps O|intros _].
    apply keeps_flag_bind; [keeps O|intros edits].
    apply keeps_flag_bind; [unfold last_item, raise; keeps O|intros box].
    apply keeps_flag_bind; [keeps O|intros _].
    apply keeps_flag_bind; [keeps O|intros _].
    apply keeps_flag_bind; [apply sleep_keeps_flag|intros _].
    apply keeps_flag_bind; [keeps O|intros _].
    apply keeps_flag_bind; [keeps O|intros _].
    apply keeps_flag_bind; [apply sleep_keeps_flag|intros _].
    keeps O. }
  intros sent. destruct (negb sent); [keeps O|].
  apply keeps_flag_bind; [apply find_windows_keeps_flag|intros _].
  apply keeps_flag_bind; [apply wait_inactive_keeps_flag|intros _].
  apply keeps_flag_bind; [apply close_dialogs_keeps_flag|intros _].
  apply keeps_flag_bind; [apply find_windows_keeps_flag|intros _].
  keeps O.
Qed.

Lemma new_thread_keeps_flag : keeps_flag flag new_thread.
Proof.
  unfold new_thread.
  apply keeps_flag_bind; [keeps O|intros _].
  apply keeps_flag_bind; [keeps O|intros _].
  apply keeps_flag_bind; [keeps O|intros _].
  apply keeps_flag_bind; [keeps O|intros _].
  apply keeps_flag_bind; [apply sleep_keeps_flag|intros _].
  apply keeps_flag_bind; [apply find_windows_keeps_flag|intros _].
  apply close_dialogs_keeps_flag.
Qed.

Lemma validate_arguments_keeps_flag : keeps_flag flag validate_arguments.
Proof.
  unfold validate_arguments, the_args, the_config, raise.
  apply keeps_flag_bind; [keeps O|intros a].
  destruct (arg_init a); [keeps O|].
  apply keeps_flag_bind; [keeps O|intros c].
  apply keeps_flag_bind; [keeps O|intros _].
  destruct (arg_prompt a) as [[|ch rest]|]; [keeps O| |keeps O].
  apply keeps_flag_branch; keeps O.
Qed.

Lemma run_setup_keeps_flag cmdline : keeps_flag flag (run_setup cmdline).
Proof.
  unfold run_setup.
  apply keeps_flag_bind; [unfold load_config; apply keeps_flag_branch; keeps O|intros c].
  apply keeps_flag_bind; [keeps O|intros _].
  apply keeps_flag_bind; [unfold parse_arguments, sys_exit; keeps O|intros _].
  apply keeps_flag_bind; [apply find_windows_keeps_flag|intros _].
  apply keeps_flag_bind; [apply validate_arguments_keeps_flag|intros valid].
  destruct (negb valid); [keeps O|].
  apply keeps_flag_bind; [unfold the_args, raise; keeps O|intros a].
  destruct (arg_init a).
  - unfold save_config. keeps O.
  - apply keeps_flag_bind; [apply new_thread_keeps_flag|intros _]. keeps O.
Qed.

(** The statements of [run] between the two calls of [set_keep_awake]
    leave the execution state alone. *)
Lemma run_body_keeps_flag cmdline fuel :
  keeps_flag flag
    (early <- run_setup cmdline ;;
     match early with
     | inl r => ret r
     | inr _ =>
         prompt <- gets bezi_prompt ;;
         result <- send_prompt fuel prompt ;;
         ret (true, VSend result)
     end).
Proof.
  apply keeps_flag_bind; [apply run_setup_keeps_flag|intros [r|[]]]; [keeps O|].
  apply keeps_flag_bind; [keeps O|intros prompt].
  apply keeps_flag_bind; [apply send_prompt_keeps_flag|intros result]. keeps O.
Qed.

End ExecutionState.

Section Release.

Context {E : Env}.

(** C9. [run] sets the keep-awake flag before anything else, and whenever
    it ends (by a return, an early return, an exception or [SystemExit])
    its last act is to release the flag: the last operation on the world
    is [SetThreadExecutionState(ES_CONTINUOUS)], so no run that ends leaves
    the flag held.  For every reading [flag] of the thread's execution
    state that only [SetThreadExecutionState] changes, the state is
    [ES_CONTINUOUS] after a run that has ended, and it is still the one
    that keeps the system awake wherever a run that has not ended is cut
    off. *)
Theorem run_releases_keep_awake (cmdline : Z + Args) (fuel : nat) (s : State) :
  let keep := Z.lor (Z.lor ES_CONTINUOUS ES_SYSTEM_REQUIRED) ES_DISPLAY_REQUIRED in
  let s' := snd (fst (run cmdline fuel s)) in
  (exists rest, snd (run cmdline fuel s) = EvExecState keep :: rest
                /\ awake_after false (EvExecState keep :: nil) = true)
  /\ (fst (fst (run cmdline fuel s)) <> Abort Diverge ->
      (exists middle,
         snd (run cmdline fuel s)
         = EvExecState keep :: middle ++ EvExecState ES_CONTINUOUS :: nil
         /\ forall held, awake_after held (snd (run cmdline fuel s)) = false)
      /\ exists w, world s' = SetThreadExecutionState ES_CONTINUOUS w)
  /\ (forall flag : W -> Z, observes_execution_state flag ->
      (fst (fst (run cmdline fuel s)) <> Abort Diverge -> flag (world s') = ES_CONTINUOUS)
      /\ (fst (fst (run cmdline fuel s)) = Abort Diverge -> flag (world s') = keep)).
Proof.
  cbv zeta. rewrite run_unfold. cbv zeta.
  set (keep := Z.lor (Z.lor ES_CONTINUOUS ES_SYSTEM_REQUIRED) ES_DISPLAY_REQUIRED).
  set (s1 := mkState (SetThreadExecutionState keep (world s)) (self s)).
  set (body := bind (run_setup cmdline) _).
  pose proof (try_finally_release body s1) as R.
  assert (D : fst (fst (body s1)) = Abort Diverge ->
              try_finally body (set_keep_awake false) s1 = body s1).
  { unfold try_finally. destruct (body s1) as [[[a|[e|c|]] s2] t2]; cbn; congruence. }
  assert (N : fst (fst (body s1)) <> Abort Diverge ->
              world (snd (fst (try_finally body (set_keep_awake false) s1)))
              = SetThreadExecutionState ES_CONTINUOUS (world (snd (fst (body s1))))).
  { unfold try_finally. destruct (body s1) as [[[a|[e|c|]] s2] t2]; cbn;
      try reflexivity. intros H. contradiction H. reflexivity. }
  assert (K : forall flag, observes_execution_state flag ->
              flag (world (snd (fst (body s1)))) = keep).
  { intros flag O. unfold body. rewrite (run_body_keeps_flag flag O cmdline fuel s1).
    apply (flag_set flag O). }
  destruct (try_finally body (set_keep_awake false) s1) as [[o s'] t] eqn:T.
  cbn [fst snd] in *.
  assert (B : o <> Abort Diverge -> fst (fst (body s1)) <> Abort Diverge).
  { intros H B. pose proof (D B) as X. rewrite <- X in B. exact (H B). }
  split; [|split].
  - exists t. split; reflexivity.
  - intros H. split.
    + destruct R as [_ R]; [exact (B H)|].
      exists (snd (body s1)). rewrite R. split; [reflexivity|].
      intros held.
      change (EvExecState keep :: snd (body s1) ++ EvExecState ES_CONTINUOUS :: nil)
        with ((EvExecState keep :: snd (body s1)) ++ EvExecState ES_CONTINUOUS :: nil).
      rewrite awake_after_app. reflexivity.
    + exists (world (snd (fst (body s1)))). exact (N (B H)).
  - intros flag O. split.
    + intros H. rewrite (N (B H)). apply (flag_set flag O).
    + intros H. subst o.
      assert (B' : fst (fst (body s1)) = Abort Diverge).
      { destruct (fst (fst (body s1))) as [a|[e|c|]] eqn:X; try reflexivity.
        all: destruct R as [R _]; [discriminate|discriminate R]. }
      pose proof (K flag O) as Kf. rewrite <- (D B') in Kf. exact Kf.
Qed.

End Release.

(** Scenario A, and the run whose prompt is empty, which ends on an
    exception: both release the flag last.  On a machine that remembers
    the execution state, scenario A leaves it at [ES_CONTINUOUS], and cut
    off after two readings it still keeps the system awake. *)
Lemma run_releases_keep_awake_witness :
  (forall held,
     awake_after held (snd (run (Script.say "Hello") 5
                              (Script.facing Script.loaded Script.scenario_A))) = false)
  /\ (forall held,
        awake_after held (snd (run (Script.say EmptyString) 5
                                 (Script.facing Script.loaded Script.scenario_A))) = false)
  /\ Machine.execution_state
       (world (snd (fst (@run Machine.env (Script.say "Hello") 5
                           (Machine.facing Script.loaded Script.scenario_A)))))
     = ES_CONTINUOUS
  /\ Machine.execution_state
       (world (snd (fst (@run Machine.env (Script.say "Hello") 2
                           (Machine.facing Script.loaded Script.scenario_A)))))
     = Z.lor (Z.lor ES_CONTINUOUS ES_SYSTEM_REQUIRED) ES_DISPLAY_REQUIRED.
Proof.
  assert (O : @observes_execution_state Machine.env Machine.execution_state)
    by (constructor; intros; reflexivity).
  split; [|split; [|split]].
  - destruct (proj1 (proj2 (run_releases_keep_awake (Script.say "Hello") 5
                       (Script.facing Script.loaded Script.scenario_A))))
      as ((middle & _ & H) & _); [vm_compute; discriminate|exact H].
  - destruct (proj1 (proj2 (run_releases_keep_awake (Script.say EmptyString) 5
                       (Script.facing Script.loaded Script.scenario_A))))
      as ((middle & _ & H) & _); [vm_compute; discriminate|exact H].
  - apply (proj2 (proj2 (@run_releases_keep_awake Machine.env (Script.say "Hello") 5
                       (Machine.facing Script.loaded Script.scenario_A)))
             Machine.execution_state O).
    vm_compute. discriminate.
  - apply (proj2 (proj2 (@run_releases_keep_awake Machine.env (Script.say "Hello") 2
                       (Machine.facing Script.loaded Script.scenario_A)))
             Machine.execution_state O).
    vm_compute. reflexivity.
Defined.

(** ** From the submission to the exit status *)
Section Process.

Context {E : Env}.

Lemma bind_inv_ret {A B} (m : M A) (k : A -> M B) (s s2 : State) (b : B) (t : trace) :
  bind m k s = (Ret b, s2, t) ->
  exists a s1 t1 t2,
    m s = (Ret a, s1, t1) /\ k a s1 = (Ret b, s2, t2) /\ t = t1 ++ t2.
Proof.
  unfold bind. destruct (m s) as [[[a|ab] s1] t1]; [|discriminate].
  destruct (k a s1) as [[o2 s2'] t2] eqn:K. intros [= -> -> <-].
  exists a, s1, t1, t2. repeat split. exact K.
Qed.

Lemma bridge_init_returns (s : State) : fst (fst (bridge_init s)) = Ret tt.
Proof.
  pose proof (bridge_init_cases s) as H.
  destruct (bridge_init s) as [[o s1] t]. destruct H as (_ & H & _). exact H.
Qed.

Lemma launch_unfold (a : Args) (s : State) :
  launch a s
  = let si := snd (fst (bridge_init s)) in
    mkState (world si) (with_args (Some a) (self si)).
Proof.
  unfold launch. pose proof (bridge_init_returns s) as HI.
  destruct (bridge_init s) as [[oi si] ti] eqn:BI. cbn [fst snd] in HI. subst oi.
  rewrite (bind_returns _ _ _ _ _ _ BI). reflexivity.
Qed.

(** [run] when its first statements go on to the submission. *)
Lemma run_submits (cmdline : Z + Args) (fuel : nat) (s s1 s2 : State)
    (t1 t2 : trace) (o : outcome send_result) :
  run_setup cmdline (awake s) = (Ret (inr tt), s1, t1) ->
  send_prompt fuel (bezi_prompt (self s1)) s1 = (o, s2, t2) ->
  o <> Abort Diverge ->
  fst (fst (run cmdline fuel s))
  = match o with Ret r => Ret (true, VSend r) | Abort ab => Abort ab end
  /\ snd (run cmdline fuel s)
     = EvExecState (Z.lor (Z.lor ES_CONTINUOUS ES_SYSTEM_REQUIRED) ES_DISPLAY_REQUIRED)
       :: t1 ++ t2 ++ EvExecState ES_CONTINUOUS :: nil.
Proof.
  intros HS HP HD. rewrite run_unfold. cbv zeta.
  change (mkState (SetThreadExecutionState _ (world s)) (self s)) with (awake s).
  set (body := bind (run_setup cmdline) _).
  assert (B : body (awake s)
              = (match o with Ret r => Ret (true, VSend r) | Abort ab => Abort ab end,
                 s2, t1 ++ t2)).
  { unfold body. rewrite (bind_returns _ _ _ _ _ _ HS).
    rewrite bind_gets. unfold bind at 1. rewrite HP.
    destruct o as [r|ab]; cbn; rewrite ?app_nil_r; reflexivity. }
  pose proof (try_finally_release body (awake s)) as R.
  rewrite B in R. cbn [fst snd] in R.
  destruct R as [R1 R2]; [destruct o; [discriminate|congruence]|].
  destruct (try_finally body (set_keep_awake false) (awake s)) as [[o' s'] t'].
  cbn [fst snd] in *. subst o' t'. rewrite <- app_assoc. split; reflexivity.
Qed.

(** The script around [run]: the result is printed when [run] reports
    success, the timings are saved in any case, and what [run] raised goes
    on to the interpreter. *)
Lemma main_of_run (a : Args) (fuel : nat) (s sR : State)
    (o : outcome (bool * run_value)) (tR : trace) :
  run (inr a) fuel (launch a s) = (o, sR, tR) ->
  o <> Abort Diverge ->
  fst (fst (main (inr a) fuel s))
  = match o with Ret _ => Ret tt | Abort ab => Abort ab end
  /\ snd (main (inr a) fuel s)
     = snd (bridge_init s) ++ tR
       ++ match o with Ret (true, v) => EvStdout v :: nil | _ => nil end
       ++ EvSaveTimings :: nil.
Proof.
  intros HR HD. rewrite launch_unfold in HR. cbv zeta in HR. unfold main.
  pose proof (bridge_init_returns s) as HI.
  destruct (bridge_init s) as [[oi si] ti] eqn:BI. cbn [fst snd] in HI, HR. subst oi.
  rewrite (bind_returns _ _ _ _ _ _ BI).
  cbn [parse_arguments].
  rewrite bind_assoc, bind_modify, bind_ret.
  set (s0 := mkState (world si) (with_args (Some a) (self si))) in *.
  set (body := bind (run (inr a) fuel) _).
  assert (B : body s0
              = (match o with Ret _ => Ret tt | Abort ab => Abort ab end, sR,
                 tR ++ match o with Ret (true, v) => EvStdout v :: nil | _ => nil end)).
  { unfold body.
    destruct o as [[success v]|ab].
    - rewrite (bind_returns _ _ _ _ _ _ HR). destruct success; reflexivity.
    - rewrite (bind_aborts _ _ _ _ _ _ HR), app_nil_r. reflexivity. }
  unfold try_finally. rewrite B.
  destruct o as [[success v]|[e|c|]]; cbn; rewrite <- ?app_assoc;
    try (split; reflexivity).
  contradiction HD. reflexivity.
Qed.

End Process.

(** ** A window without state indicator *)
Section Discovery.

Context {E : Env}.

Lemma find_none_of_absent (l : list Control) :
  (forall c, In c l -> (ctl_width c, ctl_height c) <> (56, 56)) ->
  List.find is_submit_button l = None.
Proof.
  induction l as [|c l IH]; intros H; [reflexivity|].
  cbn [List.find]. unfold is_submit_button at 1.
  destruct (ctl_width c =? bezi_submit_btn_width) eqn:Hw;
    destruct (ctl_height c =? bezi_submit_btn_height) eqn:Hh; cbn [andb];
    try (apply IH; intros c' Hc'; apply H; right; exact Hc').
  apply Z.eqb_eq in Hw, Hh. exfalso. apply (H c); [left; reflexivity|].
  rewrite Hw, Hh. reflexivity.
Qed.

(** The reading that finds no control of 56 by 56 leaves the process. *)
Lemma get_bezi_state_absent (s1 s2 : State) (tf : trace) (l : list Control) (w3 : W) :
  find_windows s1 = (Ret tt, s2, tf) ->
  win_descendants None (world s2) = (inr l, w3) ->
  List.find is_submit_button l = None ->
  get_bezi_state s1
  = (Abort (SysExit 1), mkState w3 (self s2),
     tf ++ EvDescendants None :: EvStderr "unable to find submit button" :: nil).
Proof.
  intros HF HD HN. unfold get_bezi_state.
  rewrite (bind_returns _ _ _ _ _ _ HF).
  unfold find_submit_button.
  rewrite bind_assoc, bind_emit, bind_assoc, (bind_call_ok _ _ _ _ _ HD), bind_ret, HN.
  reflexivity.
Qed.

(** C8. When the submission is reached and the window, once acquired, has
    no descendant of 56 by 56, the first reading prints the discovery
    failure and exits: the process ends with status 1, the flag released
    and the timings saved, and the polling loop's body (dialog dismissal,
    pause) is never entered, nor is any state read. *)
Theorem missing_indicator_exits (a : Args) (fuel : nat) (s s1 s2 : State)
    (t1 tf : trace) (l : list Control) (w3 : W) :
  run_setup (inr a) (awake (launch a s)) = (Ret (inr tt), s1, t1) ->
  prompt_falsy (bezi_prompt (self s1)) = false ->
  find_windows s1 = (Ret tt, s2, tf) ->
  win_descendants None (world s2) = (inr l, w3) ->
  (forall c, In c l -> (ctl_width c, ctl_height c) <> (56, 56)) ->
  let discovery := tf ++ EvDescendants None :: EvStderr "unable to find submit button" :: nil in
  fst (fst (main (inr a) (S fuel) s)) = Abort (SysExit 1)
  /\ exit_status (fst (fst (main (inr a) (S fuel) s))) = Some 1
  /\ snd (main (inr a) (S fuel) s)
     = snd (bridge_init s)
       ++ (EvExecState (Z.lor (Z.lor ES_CONTINUOUS ES_SYSTEM_REQUIRED) ES_DISPLAY_REQUIRED)
           :: t1 ++ discovery ++ EvExecState ES_CONTINUOUS :: nil)
       ++ EvSaveTimings :: nil
  /\ forallb (fun e => negb (is_reading e) && negb (is_polling_body e)) discovery = true.
Proof.
  intros HS HP HF HD HA discovery.
  pose proof (get_bezi_state_absent s1 s2 tf l w3 HF HD (find_none_of_absent l HA)) as G.
  assert (P : send_prompt (S fuel) (bezi_prompt (self s1)) s1
              = (Abort (SysExit 1), mkState w3 (self s2), discovery)).
  { unfold send_prompt. rewrite HP. cbn [wait_inactive].
    rewrite bind_assoc, (bind_aborts _ _ _ _ _ _ G). reflexivity. }
  destruct (run_submits (inr a) (S fuel) (launch a s) s1 _ t1 _ _ HS P) as [R1 R2];
    [discriminate|].
  destruct (run (inr a) (S fuel) (launch a s)) as [[o sR] tR] eqn:R.
  cbn [fst snd] in R1, R2. subst o tR.
  destruct (main_of_run a (S fuel) s sR _ _ R) as [M1 M2]; [discriminate|].
  rewrite M1, M2. repeat split.
  unfold discovery. rewrite forallb_app. apply andb_true_intro. split; [|reflexivity].
  pose proof (find_windows_events s1) as Q. rewrite HF in Q. cbn [snd] in Q.
  rewrite forallb_forall in *. intros e He. specialize (Q e He).
  destruct e; try discriminate Q; reflexivity.
Qed.

End Discovery.

(** Scenario D of the specification. *)
Lemma missing_indicator_exits_witness :
  exit_status (fst (fst (main (Script.say "Hello") 1 (Script.boot Script.no_indicator))))
  = Some 1.
Proof.
  set (a := mkArgs (Some "Hello") None false false).
  set (s := Script.boot Script.no_indicator).
  set (r := run_setup (inr a) (awake (launch a s))).
  set (f := find_windows (snd (fst r))).
  apply (missing_indicator_exits a 0 s (snd (fst r)) (snd (fst f)) (snd r) (snd f)
           (Script.controls Script.no_indicator) Script.no_indicator).
  - vm_compute. reflexivity.
  - vm_compute. reflexivity.
  - vm_compute. reflexivity.
  - vm_compute. reflexivity.
  - intros c [<-|[<-|[<-|[]]]]; vm_compute; discriminate.
Defined.

(** ** What [run] does before the submission *)
Section Setup.

Context {E : Env}.

Lemma silent_trace {A} (m : M A) (s s' : State) (o : outcome A) (t : trace) :
  emits_only silent m -> m s = (o, s', t) -> t = nil.
Proof.
  intros H R. specialize (H s). rewrite R in H.
  destruct t as [|e t]; [reflexivity|discriminate H].
Qed.

Lemma emits_only_branch {A} p (c : State -> bool) (m1 m2 : M A) :
  emits_only p m1 -> emits_only p m2 ->
  emits_only p (fun s => if c s then m1 s else m2 s).
Proof. intros H1 H2 s. destruct (c s); [apply H1|apply H2]. Qed.

Lemma load_config_silent : emits_only silent load_config.
Proof. unfold load_config, query. apply emits_only_branch; emits. Qed.

Lemma parse_arguments_silent cmdline : emits_only silent (parse_arguments cmdline).
Proof. unfold parse_arguments, sys_exit. emits. Qed.

Lemma validate_arguments_silent : emits_only silent validate_arguments.
Proof.
  unfold validate_arguments, the_args, the_config, raise, query. emits.
  all: apply emits_only_branch; emits.
Qed.

Lemma find_windows_head (s : State) :
  exists rest, snd (find_windows s) = EvConnect :: rest.
Proof.
  unfold find_windows, try_except. rewrite bind_emit.
  destruct (call app_connect s) as [[[u|[e|c|]] s1] t1]; cbn;
    try (eexists; reflexivity).
  destruct (bind _ _ s1) as [[o2 s2] t2]. eexists; reflexivity.
Qed.

Lemma new_thread_head (s s1 : State) (t : trace) :
  new_thread s = (Ret tt, s1, t) ->
  exists rest, t = EvSetFocus :: EvTypeKeys "^T" :: rest.
Proof.
  unfold new_thread. rewrite bind_emit.
  unfold bind at 1. destruct (call win_set_focus s) as [[[u|ab] s2] t2] eqn:C.
  2: { intros H. discriminate H. }
  assert (t2 = nil) as ->.
  { pose proof (emits_only_call silent win_set_focus s) as Q. rewrite C in Q.
    destruct t2; [reflexivity|discriminate Q]. }
  rewrite bind_emit.
  destruct (bind (call (win_type_keys "^T")) _ s2) as [[o3 s3] t3].
  intros [= -> -> <-]. eexists; reflexivity.
Qed.

(** When [run] goes on to the submission, it has acquired the window first
    and opened a new thread. *)
Lemma run_setup_trace (cmdline : Z + Args) (s s1 : State) (t1 : trace) :
  run_setup cmdline s = (Ret (inr tt), s1, t1) ->
  exists rest, t1 = EvConnect :: rest
               /\ In EvSetFocus rest /\ In (EvTypeKeys "^T") rest.
Proof.
  unfold run_setup. intros H.
  apply bind_inv_ret in H as (c & sa & ta & ta' & Ha & H & ->).
  pose proof (silent_trace _ _ _ _ _ load_config_silent Ha) as ->.
  rewrite bind_modify in H.
  apply bind_inv_ret in H as (a0 & sb & tb & tb' & Hb & H & ->).
  pose proof (silent_trace _ _ _ _ _ (parse_arguments_silent cmdline) Hb) as ->.
  apply bind_inv_ret in H as (u & sc & tc & tc' & Hc & H & ->).
  destruct (find_windows_head sb) as [rest Hrest]. rewrite Hc in Hrest.
  cbn [snd] in Hrest. subst tc.
  apply bind_inv_ret in H as (valid & sd & td & td' & Hd & H & ->).
  pose proof (silent_trace _ _ _ _ _ validate_arguments_silent Hd) as ->.
  destruct valid; cbn [negb] in H; [|discriminate H].
  apply bind_inv_ret in H as (a1 & se & te & te' & He & H & ->).
  destruct (arg_init a1).
  { apply bind_inv_ret in H as (? & ? & ? & ? & _ & H & _).
    apply bind_inv_ret in H as (? & ? & ? & ? & _ & H & _). discriminate H. }
  apply bind_inv_ret in H as ([] & sf & tf & tf' & Hf & H & ->).
  destruct (new_thread_head _ _ _ Hf) as [rest' ->].
  exists (rest ++ te ++ (EvSetFocus :: EvTypeKeys "^T" :: rest') ++ tf').
  cbn [app]. split; [reflexivity|].
  split; repeat (apply in_or_app; right); cbn; auto.
Qed.

End Setup.

(** ** The empty prompt *)
Section EmptyPrompt.

Context {E : Env}.

(** C2, as the code has it. The empty prompt is rejected on entry of
    [send_prompt], which then performs no operation at all: no window
    acquisition and no other operation on the user interface.  [run]
    reaches that check after its own first statements, which have acquired
    the window and opened a new thread; after the rejection it only
    releases the keep-awake flag. *)
Theorem empty_prompt_rejected_on_entry (cmdline : Z + Args) (fuel : nat)
    (s s1 : State) (t1 : trace) :
  run_setup cmdline (awake s) = (Ret (inr tt), s1, t1) ->
  prompt_falsy (bezi_prompt (self s1)) = true ->
  (forall s', send_prompt fuel (bezi_prompt (self s1)) s'
              = (Abort (Raise (Exn ValueError "Empty prompt")), s', nil))
  /\ fst (fst (run cmdline fuel s)) = Abort (Raise (Exn ValueError "Empty prompt"))
  /\ snd (run cmdline fuel s)
     = EvExecState (Z.lor (Z.lor ES_CONTINUOUS ES_SYSTEM_REQUIRED) ES_DISPLAY_REQUIRED)
       :: t1 ++ EvExecState ES_CONTINUOUS :: nil
  /\ exists rest, t1 = EvConnect :: rest
                  /\ In EvSetFocus rest /\ In (EvTypeKeys "^T") rest.
Proof.
  intros HS HP.
  assert (P : forall s', send_prompt fuel (bezi_prompt (self s1)) s'
                         = (Abort (Raise (Exn ValueError "Empty prompt")), s', nil)).
  { intros s'. unfold send_prompt. rewrite HP. reflexivity. }
  split; [exact P|].
  destruct (run_submits cmdline fuel s s1 _ t1 _ _ HS (P s1)) as [R1 R2];
    [discriminate|].
  split; [exact R1|]. split; [exact R2|].
  exact (run_setup_trace cmdline (awake s) s1 t1 HS).
Qed.

End EmptyPrompt.

(** Against C2 as stated. Scenario B of the specification: with the empty
    prompt, [run] has connected to the window four times, focused it,
    typed Ctrl-T and tried both dialog buttons by the time the prompt is
    rejected. *)
Lemma empty_prompt_run_acquires_window :
  let r := run (Script.say EmptyString) 5 (Script.facing Script.loaded Script.scenario_A) in
  fst (fst r) = Abort (Raise (Exn ValueError "Empty prompt"))
  /\ snd r = EvExecState 2147483651 :: EvConnect :: EvSetFocus :: EvTypeKeys "^T"
             :: EvSleep 1 :: EvConnect :: EvClick "Continue" :: EvConnect
             :: EvClick "Keep All" :: EvConnect :: EvExecState 2147483648 :: nil
  /\ List.length (List.filter is_ui_operation (snd r)) = 8%nat.
Proof. cbv zeta. repeat split; vm_compute; reflexivity. Qed.

Lemma empty_prompt_rejected_on_entry_witness :
  fst (fst (run (Script.say EmptyString) 5 (Script.facing Script.loaded Script.scenario_A)))
  = Abort (Raise (Exn ValueError "Empty prompt")).
Proof.
  set (s := Script.facing Script.loaded Script.scenario_A).
  set (r := run_setup (Script.say EmptyString) (awake s)).
  apply (empty_prompt_rejected_on_entry (Script.say EmptyString) 5 s (snd (fst r)) (snd r)).
  - vm_compute. reflexivity.
  - vm_compute. reflexivity.
Defined.

(** ** An edit control that cannot be located *)
Section EditControl.

Context {E : Env}.

Lemma quiet_no_injection (t : trace) :
  forallb quiet_event t = true -> List.filter is_injection t = nil.
Proof.
  induction t as [|e t IH]; intros H; [reflexivity|].
  cbn in H. apply andb_prop in H as [He Ht].
  unfold quiet_event in He. apply andb_prop in He as [Hi _].
  cbn [List.filter]. destruct (is_injection e); [discriminate Hi|]. exact (IH Ht).
Qed.

Lemma no_injection_trace (t : trace) :
  forallb (fun e => negb (is_injection e)) t = true -> List.filter is_injection t = nil.
Proof.
  induction t as [|e t IH]; intros H; [reflexivity|].
  cbn in H. apply andb_prop in H as [He Ht].
  cbn [List.filter]. destruct (is_injection e); [discriminate He|]. exact (IH Ht).
Qed.

Lemma quiet_is_no_injection (e : event) :
  quiet_event e = true -> negb (is_injection e) = true.
Proof. unfold quiet_event. intros H. apply andb_prop in H as [H _]. exact H. Qed.

Lemma get_bezi_state_no_injection :
  emits_only (fun e => negb (is_injection e)) get_bezi_state.
Proof.
  unfold get_bezi_state, print_err, sys_exit.
  apply emits_only_bind;
    [apply (emits_only_weaken quiet_event);
       [apply quiet_is_no_injection|apply find_windows_quiet]|intros _].
  apply emits_only_bind;
    [apply (emits_only_weaken quiet_event);
       [apply quiet_is_no_injection|apply find_submit_button_quiet]|intros [b|]].
  - apply emits_only_bind;
      [apply (emits_only_weaken quiet_event);
         [apply quiet_is_no_injection|apply get_button_state_quiet]|intros state].
    emits.
  - emits.
Qed.

Lemma wait_inactive_no_injection (fuel : nat) :
  emits_only (fun e => negb (is_injection e)) (wait_inactive fuel).
Proof.
  induction fuel as [|fuel IH]; cbn [wait_inactive]; [emits|].
  apply emits_only_bind; [apply get_bezi_state_no_injection|intros state].
  destruct (ActivityState_eqb INACTIVE state); [emits|].
  apply emits_only_bind;
    [apply (emits_only_weaken quiet_event);
       [apply quiet_is_no_injection|apply close_dialogs_quiet]|intros _].
  apply emits_only_bind; [unfold sleep; emits|intros _]. exact IH.
Qed.

(** The submission step when the edit control is not located: the
    diagnostic, and [False]. *)
Lemma submission_fails (message : string) (s3 s4 : State) (tf : trace)
    (r : exn + list Control) (w5 : W) (msg : string) :
  find_windows s3 = (Ret tt, s4, tf) ->
  win_descendants (Some "Edit") (world s4) = (r, w5) ->
  lookup_failure r = Some msg ->
  try_except
    (find_windows ;;
     emit (EvDescendants (Some "Edit")) ;;
     edits <- call (win_descendants (Some "Edit")) ;;
     prompt_box <- last_item edits ;;
     emit (EvSetText prompt_box message) ;;
     call (ctl_set_text prompt_box message) ;;
     sleep 1 ;;
     emit (EvTypeKeys "{ENTER}") ;; call (win_type_keys "{ENTER}") ;;
     sleep 2 ;;
     ret true)
    (fun e => print_err ("unable to find prompt box: " ++ exn_msg e) ;; ret false) s3
  = (Ret false, mkState w5 (self s4),
     tf ++ EvDescendants (Some "Edit")
        :: EvStderr ("unable to find prompt box: " ++ msg) :: nil).
Proof.
  intros HF HD HL. unfold try_except.
  rewrite (bind_returns _ _ _ _ _ _ HF), bind_emit.
  destruct r as [e|[|c l]]; [| |discriminate HL]; injection HL as <-.
  - rewrite (bind_call_err _ _ _ _ _ HD). cbn. rewrite <- app_assoc. reflexivity.
  - rewrite (bind_call_ok _ _ _ _ _ HD). cbn. rewrite <- app_assoc. reflexivity.
Qed.

(** C3, as the code has it. When the edit control cannot be located (its
    enumeration raises, or finds none), [send_prompt] prints the diagnostic
    on standard error and returns [False], without a second attempt: it
    injects nothing, the failed enumeration of the edit controls is its
    last operation on the user interface, and the rest of the process
    performs none either. *)
Theorem missing_edit_control_reports_false (a : Args) (fuel : nat)
    (s s1 s2 s3 s4 : State) (t1 tw tc tf : trace)
    (r : exn + list Control) (w5 : W) (msg : string) :
  run_setup (inr a) (awake (launch a s)) = (Ret (inr tt), s1, t1) ->
  prompt_falsy (bezi_prompt (self s1)) = false ->
  wait_inactive fuel s1 = (Ret tt, s2, tw) ->
  close_dialogs s2 = (Ret tt, s3, tc) ->
  find_windows s3 = (Ret tt, s4, tf) ->
  win_descendants (Some "Edit") (world s4) = (r, w5) ->
  lookup_failure r = Some msg ->
  let sent := send_prompt fuel (bezi_prompt (self s1)) s1 in
  fst (fst sent) = Ret SendFailed
  /\ In (EvStderr ("unable to find prompt box: " ++ msg)) (snd sent)
  /\ List.filter is_injection (snd sent) = nil
  /\ List.filter is_ui_operation (snd sent)
     = List.filter is_ui_operation (tw ++ tc ++ tf) ++ EvDescendants (Some "Edit") :: nil
  /\ exists before rest,
       snd (main (inr a) fuel s) = before ++ snd sent ++ rest
       /\ List.filter is_ui_operation rest = nil.
Proof.
  intros HS HP HW HC HF HD HL sent.
  set (submission :=
         tw ++ tc ++ tf ++ EvDescendants (Some "Edit")
            :: EvStderr ("unable to find prompt box: " ++ msg) :: nil).
  assert (P : sent = (Ret SendFailed, mkState w5 (self s4), submission)).
  { unfold sent, send_prompt. rewrite HP.
    rewrite (bind_returns _ _ _ _ _ _ HW), (bind_returns _ _ _ _ _ _ HC).
    rewrite (bind_returns _ _ _ _ _ _
               (submission_fails _ s3 s4 tf r w5 msg HF HD HL)).
    cbn. unfold submission. rewrite ?app_nil_r, <- ?app_assoc. reflexivity. }
  destruct (run_submits (inr a) fuel (launch a s) s1 _ t1 _ _ HS P) as [R1 R2];
    [discriminate|].
  rewrite P. cbn [fst snd].
  split; [reflexivity|]. split; [|split; [|split]].
  - unfold submission. rewrite !in_app_iff. right. right. right. right. left. reflexivity.
  - pose proof (wait_inactive_no_injection fuel s1) as Nw.
    pose proof (close_dialogs_quiet s2) as Nc.
    pose proof (find_windows_quiet s3) as Nf.
    rewrite HW in Nw. rewrite HC in Nc. rewrite HF in Nf. cbn [snd] in Nw, Nc, Nf.
    unfold submission. rewrite !List.filter_app.
    rewrite (no_injection_trace _ Nw), (quiet_no_injection _ Nc),
      (quiet_no_injection _ Nf).
    reflexivity.
  - unfold submission. rewrite !List.filter_app. cbn [List.filter is_ui_operation].
    rewrite <- !app_assoc. reflexivity.
  - destruct (run (inr a) fuel (launch a s)) as [[o sR] tR] eqn:R.
    cbn [fst snd] in R1, R2. subst o tR.
    destruct (main_of_run a fuel s sR _ _ R) as [M1 M2]; [discriminate|].
    exists (snd (bridge_init s)
            ++ EvExecState (Z.lor (Z.lor ES_CONTINUOUS ES_SYSTEM_REQUIRED) ES_DISPLAY_REQUIRED)
            :: t1),
      (EvExecState ES_CONTINUOUS :: EvStdout (VSend SendFailed) :: EvSaveTimings :: nil).
    split; [|reflexivity].
    rewrite M2. repeat (rewrite <- app_assoc; cbn [app]). reflexivity.
Qed.

End EditControl.

(** Against C3 as stated. A window that is idle but has no edit control:
    the diagnostic is printed, nothing is injected, and the process ends
    with status 0, not with a non-zero one. *)
Lemma missing_edit_control_exit_status_zero :
  let r := main (Script.say "Hello") 5 (Script.boot Script.no_edit_box) in
  In (EvStderr "unable to find prompt box: list index out of range") (snd r)
  /\ List.existsb is_injection (snd r) = false
  /\ In (EvStdout (VSend SendFailed)) (snd r)
  /\ exit_status (fst (fst r)) = Some 0.
Proof. vm_compute. intuition. Qed.

Lemma missing_edit_control_reports_false_witness :
  let a := mkArgs (Some "Hello") None false false in
  let s1 := snd (fst (run_setup (inr a) (awake (launch a (Script.boot Script.no_edit_box))))) in
  fst (fst (send_prompt 5 (bezi_prompt (self s1)) s1)) = Ret SendFailed
  /\ List.filter is_injection (snd (send_prompt 5 (bezi_prompt (self s1)) s1)) = nil.
Proof.
  intros a s1.
  set (s := Script.boot Script.no_edit_box).
  set (r := run_setup (inr a) (awake (launch a s))).
  set (w := wait_inactive 5 (snd (fst r))).
  set (c := close_dialogs (snd (fst w))).
  set (f := find_windows (snd (fst c))).
  destruct (missing_edit_control_reports_false a 5 s
           (snd (fst r)) (snd (fst w)) (snd (fst c)) (snd (fst f))
           (snd r) (snd w) (snd c) (snd f)
           (inr nil) (snd (win_descendants (Some "Edit") (world (snd (fst f)))))
           "list index out of range"
           ltac:(vm_compute; reflexivity)
           ltac:(vm_compute; reflexivity) ltac:(vm_compute; reflexivity)
           ltac:(vm_compute; reflexivity) ltac:(vm_compute; reflexivity)
           ltac:(vm_compute; reflexivity) ltac:(vm_compute; reflexivity))
    as (H1 & _ & H3 & _).
  split; [exact H1|exact H3].
Defined.

(** ** Scenario A of the specification, end to end

    The indicator shows busy, busy, inactive, and after the submission
    busy, inactive: the prompt is set once and Enter sent once, the text is
    harvested and printed, and the process ends with status 0. *)
Example scenario_A_submits_once :
  let r := main (Script.say "Hello") 5 (Script.boot Script.scenario_A) in
  exit_status (fst (fst r)) = Some 0
  /\ List.filter is_injection (snd r)
     = EvSetText Script.prompt_box "Hello" :: EvTypeKeys "{ENTER}" :: nil
  /\ List.filter is_reading (snd r)
     = EvReading BUSY :: EvReading BUSY :: EvReading INACTIVE
       :: EvReading BUSY :: EvReading INACTIVE :: nil
  /\ In (EvStdout (VSend (Harvested ("All done." :: nil)))) (snd r).
Proof. vm_compute. intuition. Qed.

(** With too few polling iterations allowed, the same run has not ended. *)
Example scenario_A_needs_three_readings :
  fst (fst (main (Script.say "Hello") 2 (Script.boot Script.scenario_A))) = Abort Diverge.
Proof. vm_compute. reflexivity. Qed.

(** * Further properties of the code *)

(** ** The fingerprint matcher, continued *)
Section MatcherMore.

Lemma np_equal_sym (d1 d2 : list Z) : np_equal d1 d2 = np_equal d2 d1.
Proof.
  revert d2. induction d1 as [|x d1 IH]; intros [|y d2]; try reflexivity.
  cbn [np_equal]. rewrite (Z.eqb_sym x y), IH. reflexivity.
Qed.

(** X1. The matcher does not depend on which image is the reference and
    which the capture: [images_match a b t] and [images_match b a t] agree
    for all images and thresholds. *)
Theorem images_match_symmetric (a b : Image) (t : spec_float) :
  images_match a b t = images_match b a t.
Proof.
  unfold images_match. cbv zeta.
  rewrite (np_equal_sym (data (np_array a)) (data (np_array b))).
  destruct (decide (shape (np_array a) = shape (np_array b))) as [Heq|Hne].
  - rewrite !bool_decide_eq_false_2; [reflexivity| |]; intros H; apply H; congruence.
  - rewrite !bool_decide_eq_true_2; [reflexivity| |]; congruence.
Qed.

Lemma np_equal_nil_r (d : list Z) : np_equal d nil = nil.
Proof. destruct d; reflexivity. Qed.

Lemma gtb_nan (t : spec_float) : F64.gtb S754_nan t = false.
Proof. destruct t; reflexivity. Qed.

(** X2. An image without pixels matches nothing, not even itself, at any
    threshold: the mean of an empty array is not a number, and no
    comparison with it holds. *)
Theorem images_match_empty (a b : Image) (t : spec_float) :
  img_pixels a = nil \/ img_pixels b = nil ->
  images_match a b t = false /\ images_match b a t = false.
Proof.
  assert (M : forall x y : Image,
            img_pixels x = nil \/ img_pixels y = nil -> images_match x y t = false).
  { intros x y H. unfold images_match. cbv zeta.
    destruct (bool_decide (shape (np_array x) <> shape (np_array y))); [reflexivity|].
    assert (N : np_equal (data (np_array x)) (data (np_array y)) = nil).
    { destruct H as [H|H]; simpl; rewrite H; simpl; [reflexivity|apply np_equal_nil_r]. }
    rewrite N. apply gtb_nan. }
  intros H. split; apply M; tauto.
Qed.

Lemma images_match_empty_witness :
  images_match (mkImage 0 0 nil) (mkImage 0 0 nil) F64.lit_0_90 = false.
Proof.
  apply (images_match_empty (mkImage 0 0 nil) (mkImage 0 0 nil) F64.lit_0_90).
  left. reflexivity.
Defined.

Lemma count_true_none (bs : list bool) :
  forallb negb bs = true -> count_true bs = 0.
Proof.
  unfold count_true. induction bs as [|b bs IH]; [reflexivity|].
  simpl. destruct b; simpl; [discriminate|exact IH].
Qed.

Lemma div_zero_cases (x : spec_float) :
  F64.div (S754_zero false) x = S754_nan
  \/ exists s, F64.div (S754_zero false) x = S754_zero s.
Proof.
  destruct x as [s|s| |s m e].
  - left; reflexivity.
  - right; eexists; reflexivity.
  - left; reflexivity.
  - right; eexists; reflexivity.
Qed.

(** X3. Two images with no equal element at any position do not match at
    any threshold that is not below zero (so not at 0.90 or 0.95): the
    mean is zero, or not a number. *)
Theorem images_match_nothing_equal (a b : Image) (t : spec_float) :
  forallb negb (np_equal (data (np_array a)) (data (np_array b))) = true ->
  F64.ltb t (F64.of_Z 0) = false ->
  images_match a b t = false.
Proof.
  intros D T. unfold images_match. cbv zeta.
  destruct (bool_decide (shape (np_array a) <> shape (np_array b))); [reflexivity|].
  unfold np_mean. rewrite (count_true_none _ D).
  change (F64.of_Z 0) with (S754_zero false) in *.
  destruct (div_zero_cases (F64.of_Z (Z.of_nat (List.length
              (np_equal (data (np_array a)) (data (np_array b)))))))
    as [-> | [s ->]].
  - apply gtb_nan.
  - unfold F64.gtb, F64.ltb in *. destruct t as [s'|s'| |s' m e]; destruct s; exact T.
Qed.

Lemma images_match_nothing_equal_witness :
  images_match Script.ref_busy Script.other_icon F64.lit_0_90 = false.
Proof.
  apply (images_match_nothing_equal Script.ref_busy Script.other_icon F64.lit_0_90);
    reflexivity.
Defined.

End MatcherMore.

(** ** Rules for what a call always does *)
Section Always.

Context {E : Env}.

Lemma always_weaken {A} (m : M A) (P Q : outcome A -> trace -> Prop) :
  (forall o t, P o t -> Q o t) -> always m P -> always m Q.
Proof. intros I H s. apply I, H. Qed.

Lemma always_ret {A} (a : A) (Q : outcome A -> trace -> Prop) :
  Q (Ret a) nil -> always (ret a) Q.
Proof. intros H s. exact H. Qed.

Lemma always_stop {A} ab (Q : outcome A -> trace -> Prop) :
  Q (Abort ab) nil -> always (stop ab) Q.
Proof. intros H s. exact H. Qed.

Lemma always_emit e (Q : outcome unit -> trace -> Prop) :
  Q (Ret tt) (e :: nil) -> always (emit e) Q.
Proof. intros H s. exact H. Qed.

Lemma always_gets {A} (f : Bridge -> A) (Q : outcome A -> trace -> Prop) :
  (forall a, Q (Ret a) nil) -> always (gets f) Q.
Proof. intros H s. apply H. Qed.

Lemma always_modify f (Q : outcome unit -> trace -> Prop) :
  Q (Ret tt) nil -> always (modify f) Q.
Proof. intros H s. exact H. Qed.

Lemma always_effect f (Q : outcome unit -> trace -> Prop) :
  Q (Ret tt) nil -> always (effect f) Q.
Proof. intros H s. exact H. Qed.

Lemma always_call {A} (f : W -> (exn + A) * W) (Q : outcome A -> trace -> Prop) :
  (forall a, Q (Ret a) nil) -> (forall e, Q (Abort (Raise e)) nil) ->
  always (call f) Q.
Proof.
  intros H1 H2 s. unfold call. destruct (f (world s)) as [[e|a] w]; cbn; auto.
Qed.

(** The events of a call that emits only [p]-events, however it ends. *)
Lemma always_emits {A} (p : event -> bool) (m : M A) (Q : outcome A -> trace -> Prop) :
  emits_only p m -> (forall o t, forallb p t = true -> Q o t) -> always m Q.
Proof. intros H I s. apply I, H. Qed.

Lemma always_bind {A B} (m : M A) (k : A -> M B) (Q : outcome B -> trace -> Prop) :
  always m (fun o t1 =>
    match o with
    | Ret a => always (k a) (fun o2 t2 => Q o2 (t1 ++ t2))
    | Abort ab => Q (Abort ab) t1
    end) ->
  always (bind m k) Q.
Proof.
  intros H s. specialize (H s). unfold bind.
  destruct (m s) as [[[a|ab] s1] t1]; cbn in *.
  - specialize (H s1). destruct (k a s1) as [[o2 s2] t2]. exact H.
  - exact H.
Qed.

Lemma always_try_except {A} (body : M A) handler (Q : outcome A -> trace -> Prop) :
  always body (fun o t1 =>
    match o with
    | Abort (Raise e) => always (handler e) (fun o2 t2 => Q o2 (t1 ++ t2))
    | _ => Q o t1
    end) ->
  always (try_except body handler) Q.
Proof.
  intros H s. specialize (H s). unfold try_except.
  destruct (body s) as [[[a|[e|c|]] s1] t1]; cbn in *; try exact H.
  specialize (H s1). destruct (handler e s1) as [[o2 s2] t2]. exact H.
Qed.

Lemma always_try_finally {A} (body : M A) cleanup (Q : outcome A -> trace -> Prop) :
  always body (fun o t1 =>
    match o with
    | Abort Diverge => Q o t1
    | _ => always cleanup (fun o2 t2 =>
             Q (match o2 with Ret _ => o | Abort ab => Abort ab end) (t1 ++ t2))
    end) ->
  always (try_finally body cleanup) Q.
Proof.
  intros H s. specialize (H s). unfold try_finally.
  destruct (body s) as [[[a|[e|c|]] s1] t1]; cbn in *; try exact H;
    specialize (H s1); destruct (cleanup s1) as [[o2 s2] t2]; exact H.
Qed.

Lemma always_branch {A} (c : State -> bool) (m1 m2 : M A) (Q : outcome A -> trace -> Prop) :
  always m1 Q -> always m2 Q -> always (fun s => if c s then m1 s else m2 s) Q.
Proof. intros H1 H2 s. destruct (c s); [apply H1|apply H2]. Qed.

End Always.

(** ** Construction, window acquisition, discovery, dialogs *)
Section Acquisition.

Context {E : Env}.

(** X4. [__init__] never raises and leaves the world as it is.  It resets
    the attributes, and then either all three reference images have loaded
    and nothing is printed, or exactly one line is printed and
    [ready_icon_busy], which is loaded last, is unassigned: the classifier
    is usable exactly when nothing was printed. *)
Theorem init_loads_all_or_reports (s : State) :
  let '(o, s1, t) := bridge_init s in
  o = Ret tt /\ world s1 = world s
  /\ args (self s1) = None /\ config (self s1) = None
  /\ bezi_prompt (self s1) = Some EmptyString /\ bezi_path (self s1) = JStr EmptyString
  /\ ((exists i a b,
         t = nil
         /\ image_open "ref_ready.png" (world s) = inr i
         /\ image_open "ref_ready_active.png" (world s) = inr a
         /\ image_open "ref_busy.png" (world s) = inr b
         /\ ready_icon_inactive (self s1) = Some i
         /\ ready_icon_active (self s1) = Some a
         /\ ready_icon_busy (self s1) = Some b)
      \/ (exists e, t = EvStderr ("Error loading reference images: " ++ exn_msg e) :: nil
                    /\ ready_icon_busy (self s1) = None)).
Proof.
  unfold bridge_init. rewrite bind_modify.
  unfold try_except, query, print_err.
  destruct (image_open "ref_ready.png" (world s)) as [e|i] eqn:H1.
  { erewrite bind_call_err by (cbn [world]; rewrite H1; reflexivity).
    cbn. repeat split. right. eexists. split; reflexivity. }
  erewrite bind_call_ok by (cbn [world]; rewrite H1; reflexivity).
  rewrite bind_modify. cbn [world self].
  destruct (image_open "ref_ready_active.png" (world s)) as [e|a] eqn:H2.
  { erewrite bind_call_err by (cbn [world]; rewrite H2; reflexivity).
    cbn. repeat split. right. eexists. split; reflexivity. }
  erewrite bind_call_ok by (cbn [world]; rewrite H2; reflexivity).
  rewrite bind_modify. cbn [world self].
  destruct (image_open "ref_busy.png" (world s)) as [e|b] eqn:H3.
  { erewrite bind_call_err by (cbn [world]; rewrite H3; reflexivity).
    cbn. repeat split. right. eexists. split; reflexivity. }
  erewrite bind_call_ok by (cbn [world]; rewrite H3; reflexivity).
  cbn. repeat split. left. exists i, a, b. repeat split.
Qed.

(** The two ways of [find_windows], with the state it leaves and its
    events. *)
Lemma find_windows_connects_or_launches (s : State) :
  match app_connect (world s) with
  | (inr _, w1) => find_windows s = (Ret tt, mkState w1 (self s), EvConnect :: nil)
  | (inl e, w1) =>
      let p := if truthy (bezi_path (self s)) then bezi_path (self s)
               else JStr default_bezi_path in
      truthy p = true
      /\ find_windows s
         = (match fst (app_start p w1) with
            | inr _ => Ret tt
            | inl e' => Abort (Raise e')
            end,
            mkState (snd (app_start p w1))
              (if truthy (bezi_path (self s)) then self s
               else with_path (JStr default_bezi_path) (self s)),
            EvConnect
            :: EvStderr ("Exception connection to Bezi app. " ++ exn_msg e)
            :: EvStderr "Attempting to launch exe."
            :: EvStart p :: nil)
  end.
Proof.
  destruct (app_connect (world s)) as [[e|[]] w1] eqn:C.
  - cbv zeta. unfold find_windows, try_except, print_err.
    assert (K : call app_connect s = (Abort (Raise e), mkState w1 (self s), nil)).
    { unfold call. rewrite C. reflexivity. }
    rewrite bind_emit, K. cbn [app].
    destruct (truthy (bezi_path (self s))) eqn:T.
    + split; [exact T|].
      rewrite !bind_emit, bind_gets. cbn [self]. rewrite T. cbn [negb].
      rewrite bind_ret, bind_gets, bind_emit. cbn [self world].
      unfold call. cbn [world self].
      destruct (app_start (bezi_path (self s)) w1) as [[e'|[]] w2]; reflexivity.
    + split; [reflexivity|].
      rewrite !bind_emit, bind_gets. cbn [self]. rewrite T. cbn [negb].
      rewrite bind_modify, bind_gets, bind_emit. cbn [self world with_path bezi_path].
      unfold call. cbn [world self].
      destruct (app_start (JStr default_bezi_path) w1) as [[e'|[]] w2]; reflexivity.
  - unfold find_windows, try_except. rewrite bind_emit.
    unfold call. rewrite C. reflexivity.
Qed.


Lemma find_first (f : Control -> bool) (l : list Control) :
  match List.find f l with
  | Some c => exists before after,
      l = before ++ c :: after /\ f c = true /\ forallb (fun x => negb (f x)) before = true
  | None => forallb (fun x => negb (f x)) l = true
  end.
Proof.
  induction l as [|x l IH]; [reflexivity|].
  cbn [List.find]. destruct (f x) eqn:Fx.
  - exists nil, l. repeat split. exact Fx.
  - destruct (List.find f l) as [c|].
    + destruct IH as (before & after & -> & Fc & Hb).
      exists (x :: before), after. repeat split; [exact Fc|].
      cbn. rewrite Fx. exact Hb.
    + cbn. rewrite Fx. exact IH.
Qed.

(** X6. When the enumeration succeeds, [find_submit_button] returns the
    first descendant, in the order of the enumeration, that is 56 wide and
    56 high, and [None] exactly when no descendant has that size; it
    enumerates once. *)
Theorem find_submit_button_first (s : State) (l : list Control) (w' : W) :
  win_descendants None (world s) = (inr l, w') ->
  exists found,
    find_submit_button s = (Ret found, mkState w' (self s), EvDescendants None :: nil)
    /\ match found with
       | Some c => exists before after,
           l = before ++ c :: after
           /\ ctl_width c = 56 /\ ctl_height c = 56
           /\ forall x, In x before -> (ctl_width x, ctl_height x) <> (56, 56)
       | None => forall x, In x l -> (ctl_width x, ctl_height x) <> (56, 56)
       end.
Proof.
  intros H. exists (List.find is_submit_button l). split.
  { unfold find_submit_button.
    rewrite bind_emit, (bind_call_ok _ _ _ _ _ H). reflexivity. }
  assert (N : forall l', forallb (fun x => negb (is_submit_button x)) l' = true ->
                         forall x, In x l' -> (ctl_width x, ctl_height x) <> (56, 56)).
  { intros l' F x Hx [= Hw Hh]. rewrite forallb_forall in F. specialize (F x Hx).
    unfold is_submit_button, bezi_submit_btn_width, bezi_submit_btn_height in F.
    rewrite Hw, Hh in F. discriminate F. }
  pose proof (find_first is_submit_button l) as F.
  destruct (List.find is_submit_button l) as [c|].
  - destruct F as (before & after & -> & Fc & Hb).
    exists before, after. unfold is_submit_button in Fc.
    apply andb_prop in Fc as [Fw Fh]. apply Z.eqb_eq in Fw, Fh.
    repeat split; [exact Fw|exact Fh|exact (N before Hb)].
  - exact (N l F).
Qed.



End Acquisition.

Lemma find_submit_button_first_witness :
  exists found,
    fst (fst (find_submit_button (Script.facing Script.loaded Script.scenario_A)))
    = Ret found
    /\ found = Some Script.indicator.
Proof.
  destruct (find_submit_button_first (Script.facing Script.loaded Script.scenario_A)
              (Script.controls Script.scenario_A) Script.scenario_A eq_refl)
    as (found & H & _).
  exists found. rewrite H. split; [reflexivity|].
  injection H as H. symmetry. exact H.
Defined.


(** ** The polling loop *)
Section Polling.

Context {E : Env}.

Lemma calm_trace (t : trace) :
  forallb calm_event t = true ->
  List.filter is_reading t = nil /\ List.filter is_sleep t = nil.
Proof.
  induction t as [|e t IH]; intros H; [split; reflexivity|].
  cbn in H. apply andb_prop in H as [He Ht]. destruct (IH Ht) as [IH1 IH2].
  unfold calm_event in He. apply andb_prop in He as [Hr Hs].
  cbn. destruct (is_reading e); [discriminate Hr|].
  destruct (is_sleep e); [discriminate Hs|]. split; assumption.
Qed.

Lemma find_windows_calm : emits_only calm_event find_windows.
Proof.
  apply (emits_only_weaken is_acquisition); [|apply find_windows_events].
  intros [] H; try discriminate H; reflexivity.
Qed.

Lemma close_dialogs_calm : emits_only calm_event close_dialogs.
Proof.
  unfold close_dialogs, click_button_by_name.
  repeat first [ apply emits_only_bind; [|intros ?] | apply find_windows_calm ];
    emits.
Qed.

(** A reading: calm events, then the state that is returned. *)
Lemma get_bezi_state_trace :
  always get_bezi_state (fun o t =>
    match o with
    | Ret state => exists t0, t = t0 ++ EvReading state :: nil /\ forallb calm_event t0 = true
    | Abort _ => forallb calm_event t = true
    end).
Proof.
  unfold get_bezi_state.
  apply always_bind, (always_emits calm_event); [apply find_windows_calm|].
  intros [[]|ab] t1 H1; [|exact H1].
  apply always_bind, (always_emits calm_event);
    [unfold find_submit_button; emits|].
  intros [[b|]|ab] t2 H2.
  - apply always_bind, (always_emits calm_event);
      [unfold get_button_state, getattr, raise; emits|].
    intros [state|ab] t3 H3.
    + apply always_bind, always_emit, always_ret.
      exists (t1 ++ t2 ++ t3). rewrite <- !app_assoc. split; [reflexivity|].
      rewrite !forallb_app, H1, H2, H3. reflexivity.
    + rewrite !forallb_app, H1, H2, H3. reflexivity.
  - unfold print_err, sys_exit. apply always_bind, always_emit, always_stop.
    rewrite !forallb_app, H1, H2. reflexivity.
  - rewrite forallb_app, H1, H2. reflexivity.
Qed.

Lemma calm_poll_trace (t : trace) :
  forallb calm_event t = true -> List.filter is_poll_event t = nil.
Proof.
  induction t as [|e t IH]; intros H; [reflexivity|].
  cbn in H. apply andb_prop in H as [He Ht].
  unfold calm_event in He. apply andb_prop in He as [Hr Hs].
  cbn [List.filter]. unfold is_poll_event at 1.
  destruct (is_reading e); [discriminate Hr|].
  destruct (is_sleep e); [discriminate Hs|]. exact (IH Ht).
Qed.

(** X8. The polling loop stops at the first [INACTIVE] reading and at no
    other: when it returns, its readings and pauses are, in this order, a
    reading other than [INACTIVE] ([BUSY], [READY] and [UNKNOWN] alike)
    followed by a pause of one second, any number of times, and then one
    [INACTIVE] reading with no pause after it.  When it does not return,
    they are such pairs, followed at most by one more reading other than
    [INACTIVE]: it has read no [INACTIVE]. *)
Theorem wait_inactive_polls_until_inactive (fuel : nat) (s : State) :
  exists waited : list ActivityState,
    Forall (fun state => state <> INACTIVE) waited
    /\ match fst (fst (wait_inactive fuel s)) with
       | Ret _ =>
           List.filter is_poll_event (snd (wait_inactive fuel s))
           = flat_map waited_round waited ++ EvReading INACTIVE :: nil
       | Abort _ =>
           exists last,
             List.filter is_poll_event (snd (wait_inactive fuel s))
             = flat_map waited_round waited ++ last
             /\ (last = nil
                 \/ exists state, state <> INACTIVE /\ last = EvReading state :: nil)
       end.
Proof.
  revert s.
  change (always (wait_inactive fuel) (fun o t =>
    exists waited : list ActivityState,
      Forall (fun state => state <> INACTIVE) waited
      /\ match o with
         | Ret _ =>
             List.filter is_poll_event t
             = flat_map waited_round waited ++ EvReading INACTIVE :: nil
         | Abort _ =>
             exists last,
               List.filter is_poll_event t = flat_map waited_round waited ++ last
               /\ (last = nil
                   \/ exists state, state <> INACTIVE /\ last = EvReading state :: nil)
         end)).
  induction fuel as [|fuel IH].
  { apply always_stop. exists nil. split; [constructor|].
    exists nil. split; [reflexivity|left; reflexivity]. }
  cbn [wait_inactive].
  apply always_bind. eapply always_weaken; [|apply get_bezi_state_trace].
  intros [state|ab] t1 H1.
  2: { exists nil. split; [constructor|]. exists nil.
       rewrite (calm_poll_trace _ H1). split; [reflexivity|left; reflexivity]. }
  destruct H1 as (t0 & -> & H0). pose proof (calm_poll_trace _ H0) as R0.
  destruct (ActivityState_eqb INACTIVE state) eqn:Q.
  { destruct state; try discriminate Q.
    apply always_ret. exists nil. split; [constructor|].
    rewrite app_nil_r, !List.filter_app, R0. reflexivity. }
  assert (N : state <> INACTIVE) by (intros ->; discriminate Q).
  apply always_bind, (always_emits calm_event); [apply close_dialogs_calm|].
  intros [[]|ab] t2 H2; pose proof (calm_poll_trace _ H2) as R2.
  2: { exists nil. split; [constructor|]. exists (EvReading state :: nil).
       rewrite !List.filter_app, R0, R2. split; [reflexivity|].
       right. exists state. split; [exact N|reflexivity]. }
  unfold sleep.
  apply always_bind, always_bind, always_emit, always_effect. cbn beta iota.
  eapply always_weaken; [|apply IH].
  intros o t3 (waited & F & H3).
  exists (state :: waited). split; [constructor; assumption|].
  rewrite <- !app_assoc. cbn [app].
  assert (X : List.filter is_poll_event
                (t0 ++ EvReading state :: t2 ++ EvSleep 1 :: t3)
              = waited_round state ++ List.filter is_poll_event t3).
  { rewrite List.filter_app, R0. cbn [List.filter is_poll_event is_reading orb app].
    rewrite List.filter_app, R2. reflexivity. }
  rewrite X. cbn [flat_map]. rewrite <- app_assoc.
  destruct o as [[]|ab].
  - rewrite H3. reflexivity.
  - destruct H3 as (last & H3 & L). exists last. rewrite H3. split; [reflexivity|exact L].
Qed.

End Polling.

(** ** One prompt, one submission *)
Section Submission.

Context {E : Env}.

Lemma always_seq {A B} (m : M A) (k : A -> M B)
    (P : outcome A -> trace -> Prop) (Q : outcome B -> trace -> Prop) :
  always m P ->
  (forall a t1, P (Ret a) t1 -> always (k a) (fun o2 t2 => Q o2 (t1 ++ t2))) ->
  (forall ab t1, P (Abort ab) t1 -> Q (Abort ab) t1) ->
  always (bind m k) Q.
Proof.
  intros Hm Hk Ha. apply always_bind. eapply always_weaken; [|exact Hm].
  intros [a|ab] t1 H; [apply Hk, H|apply Ha, H].
Qed.

Lemma always_try_except_seq {A} (body : M A) handler
    (P Q : outcome A -> trace -> Prop) :
  always body P ->
  (forall e t1, P (Abort (Raise e)) t1 ->
     always (handler e) (fun o2 t2 => Q o2 (t1 ++ t2))) ->
  (forall o t1, P o t1 -> (forall e, o <> Abort (Raise e)) -> Q o t1) ->
  always (try_except body handler) Q.
Proof.
  intros Hb Hh Ho. apply always_try_except. eapply always_weaken; [|exact Hb].
  intros [a|[e|c|]] t1 H; try (apply Ho; [exact H|discriminate]).
  apply Hh, H.
Qed.

Ltac injections :=
  repeat first
    [ rewrite List.filter_app
    | match goal with
      | H : List.filter is_injection ?t = nil |- context [List.filter is_injection ?t] =>
          rewrite H
      end
    | progress cbn [List.filter app is_injection String.eqb Ascii.eqb Bool.eqb] ].

(** The submission step sets the text, then sends Enter; it returns only
    when both went through. *)
Lemma submission_injections (msg : string) :
  always
    (find_windows ;;
     emit (EvDescendants (Some "Edit")) ;;
     edits <- call (win_descendants (Some "Edit")) ;;
     prompt_box <- last_item edits ;;
     emit (EvSetText prompt_box msg) ;;
     call (ctl_set_text prompt_box msg) ;;
     sleep 1 ;;
     emit (EvTypeKeys "{ENTER}") ;; call (win_type_keys "{ENTER}") ;;
     sleep 2 ;;
     ret true)
    (fun o t =>
       injections_of_one_prompt msg (List.filter is_injection t)
       /\ forall a, o = Ret a ->
            a = true
            /\ exists box, List.filter is_injection t
                           = EvSetText box msg :: EvTypeKeys "{ENTER}" :: nil).
Proof.
  assert (None0 : forall ab : abort,
            injections_of_one_prompt msg nil
            /\ forall a : bool, Abort ab = Ret a ->
                 a = true
                 /\ exists box, @nil event = EvSetText box msg :: EvTypeKeys "{ENTER}" :: nil).
  { intros ab. split; [left; reflexivity|]. intros a H. discriminate H. }
  apply always_bind, (always_emits quiet_event); [apply find_windows_quiet|].
  intros [[]|ab] ta Ha; apply quiet_no_injection in Ha;
    [|rewrite Ha; apply None0].
  apply always_bind, always_emit, always_bind, always_call;
    [intros edits|intros e; injections; apply None0].
  apply always_bind, (always_emits quiet_event); [apply last_item_quiet|].
  intros [prompt_box|ab] tb Hb; apply quiet_no_injection in Hb;
    [|injections; apply None0].
  apply always_bind, always_emit, always_bind, always_call.
  2: { intros e. injections. split; [right; left; eexists; reflexivity|].
       intros a H. discriminate H. }
  intros _.
  apply always_bind, (always_emits quiet_event); [apply sleep_quiet|].
  intros [[]|ab] tc Hc; apply quiet_no_injection in Hc.
  2: { injections. split; [right; left; eexists; reflexivity|].
       intros a H. discriminate H. }
  apply always_bind, always_emit, always_bind, always_call.
  2: { intros e. injections. split; [right; right; eexists; reflexivity|].
       intros a H. discriminate H. }
  intros _.
  apply always_bind, (always_emits quiet_event); [apply sleep_quiet|].
  intros [[]|ab] td Hd; apply quiet_no_injection in Hd.
  2: { injections. split; [right; right; eexists; reflexivity|].
       intros a H. discriminate H. }
  apply always_ret. injections.
  split; [right; right; eexists; reflexivity|].
  intros a [= <-]. split; [reflexivity|eexists; reflexivity].
Qed.

(** X9. For one call of [send_prompt], whatever the environment does: the
    text of the edit control is set at most once, to the prompt, and Enter
    is sent at most once, after it.  When the call returns the harvested
    texts, both have happened, exactly once each. *)
Theorem send_prompt_submits_once (fuel : nat) (message : option string) (s : State) :
  injections_of_one_prompt (default EmptyString message)
    (List.filter is_injection (snd (send_prompt fuel message s)))
  /\ forall texts,
       fst (fst (send_prompt fuel message s)) = Ret (Harvested texts) ->
       exists box,
         List.filter is_injection (snd (send_prompt fuel message s))
         = EvSetText box (default EmptyString message) :: EvTypeKeys "{ENTER}" :: nil.
Proof.
  revert s.
  set (msg := default EmptyString message).
  change (always (send_prompt fuel message) (fun o t =>
    injections_of_one_prompt msg (List.filter is_injection t)
    /\ forall texts, o = Ret (Harvested texts) ->
         exists box, List.filter is_injection t
                     = EvSetText box msg :: EvTypeKeys "{ENTER}" :: nil)).
  unfold send_prompt. destruct (prompt_falsy message).
  { apply always_stop. split; [left; reflexivity|]. intros texts H. discriminate H. }
  apply always_bind, (always_emits (fun e => negb (is_injection e)));
    [apply wait_inactive_no_injection|].
  intros [[]|ab] t1 H1; apply no_injection_trace in H1.
  2: { rewrite H1. split; [left; reflexivity|]. intros texts H. discriminate H. }
  apply always_bind, (always_emits quiet_event); [apply close_dialogs_quiet|].
  intros [[]|ab] t2 H2; apply quiet_no_injection in H2.
  2: { injections. split; [left; reflexivity|]. intros texts H. discriminate H. }
  apply (always_seq _ _ (fun o t =>
           injections_of_one_prompt msg (List.filter is_injection t)
           /\ (o = Ret true ->
               exists box, List.filter is_injection t
                           = EvSetText box msg :: EvTypeKeys "{ENTER}" :: nil))).
  - apply (always_try_except_seq _ _ _ _ (submission_injections msg)).
    + intros e t3 [I3 _]. unfold print_err.
      apply always_bind, always_emit, always_ret.
      rewrite app_nil_r, List.filter_app. cbn [List.filter is_injection]. rewrite app_nil_r.
      split; [exact I3|]. intros H. discriminate H.
    + intros o t3 [I3 R3] _. split; [exact I3|].
      intros ->. destruct (R3 true eq_refl) as [_ R]. exact R.
  - intros sent t3 [I3 R3]. destruct sent; cbn [negb].
    + destruct (R3 eq_refl) as [box B].
      assert (Done : forall (o : outcome send_result) (t : trace),
                List.filter is_injection t = nil ->
                injections_of_one_prompt msg
                  (List.filter is_injection (t1 ++ t2 ++ t3 ++ t))
                /\ forall texts, o = Ret (Harvested texts) ->
                     exists box', List.filter is_injection (t1 ++ t2 ++ t3 ++ t)
                                  = EvSetText box' msg :: EvTypeKeys "{ENTER}" :: nil).
      { intros o t Ht. injections. rewrite B, app_nil_r.
        split; [right; right; eexists; reflexivity|].
        intros texts _. eexists; reflexivity. }
      apply always_bind, (always_emits quiet_event); [apply find_windows_quiet|].
      intros [[]|ab] t4 H4; apply quiet_no_injection in H4.
      2: { rewrite <- ?app_assoc. apply Done, H4. }
      apply always_bind, (always_emits (fun e => negb (is_injection e)));
        [apply wait_inactive_no_injection|].
      intros [[]|ab] t5 H5; apply no_injection_trace in H5.
      2: { rewrite <- ?app_assoc. apply Done. injections. reflexivity. }
      apply always_bind, (always_emits quiet_event); [apply close_dialogs_quiet|].
      intros [[]|ab] t6 H6; apply quiet_no_injection in H6.
      2: { rewrite <- ?app_assoc. apply Done. injections. reflexivity. }
      apply always_bind, (always_emits quiet_event); [apply find_windows_quiet|].
      intros [[]|ab] t7 H7; apply quiet_no_injection in H7.
      2: { rewrite <- ?app_assoc. apply Done. injections. reflexivity. }
      apply always_bind, always_emit, always_bind, always_call.
      * intros elements. apply always_ret.
        rewrite <- ?app_assoc. apply Done. injections. reflexivity.
      * intros e. rewrite <- ?app_assoc. apply Done. injections. reflexivity.
    + apply always_ret. rewrite app_nil_r, <- ?app_assoc.
      injections. split; [exact I3|]. intros texts H. discriminate H.
  - intros ab t3 [I3 _]. rewrite <- ?app_assoc. injections.
    split; [exact I3|]. intros texts H. discriminate H.
Qed.

End Submission.

(** ** Enumerations on a fresh window *)
Section Freshness.

Context {E : Env}.

Lemma enumerations_fresh_app (fresh : bool) (t1 t2 : trace) :
  enumerations_fresh fresh (t1 ++ t2)
  = enumerations_fresh fresh t1 && enumerations_fresh (resolved_after fresh t1) t2.
Proof.
  revert fresh. induction t1 as [|e t1 IH]; intros fresh; [reflexivity|].
  cbn. rewrite IH, andb_assoc. reflexivity.
Qed.

Lemma no_descendants_fresh (fresh : bool) (t : trace) :
  forallb no_descendants t = true -> enumerations_fresh fresh t = true.
Proof.
  revert fresh. induction t as [|e t IH]; intros fresh H; [reflexivity|].
  cbn in *. apply andb_prop in H as [He Ht]. unfold no_descendants in He.
  destruct (is_descendants e); [discriminate He|]. apply IH, Ht.
Qed.

Lemma fresh_call_bind {A B} (m : M A) (k : A -> M B) :
  fresh_call m -> (forall a, fresh_call (k a)) -> fresh_call (bind m k).
Proof.
  intros Hm Hk. apply (always_seq _ _ _ _ Hm).
  - intros a t1 H1. eapply always_weaken; [|apply (Hk a)].
    intros o t2 H2 fresh. rewrite enumerations_fresh_app, H1, H2. reflexivity.
  - intros ab t1 H1. exact H1.
Qed.

Lemma fresh_after_bind {A B} (m : M A) (k : A -> M B) :
  fresh_after m -> (forall a, fresh_call (k a)) -> fresh_after (bind m k).
Proof.
  intros Hm Hk. apply (always_seq _ _ _ _ Hm).
  - intros a t1 H1. eapply always_weaken; [|apply (Hk a)].
    intros o t2 H2. rewrite enumerations_fresh_app, H1, H2. reflexivity.
  - intros ab t1 H1. exact H1.
Qed.

Lemma fresh_call_emits {A} (m : M A) :
  emits_only no_descendants m -> fresh_call m.
Proof.
  intros H. apply (always_emits no_descendants _ _ H).
  intros o t Ht fresh. apply no_descendants_fresh, Ht.
Qed.

Lemma fresh_call_try_except {A} (body : M A) handler :
  fresh_call body -> (forall e, fresh_call (handler e)) ->
  fresh_call (try_except body handler).
Proof.
  intros Hb Hh. apply (always_try_except_seq _ _ _ _ Hb).
  - intros e t1 H1. eapply always_weaken; [|apply (Hh e)].
    intros o t2 H2 fresh. rewrite enumerations_fresh_app, H1, H2. reflexivity.
  - intros o t1 H1 _. exact H1.
Qed.

Lemma fresh_call_try_finally {A} (body : M A) cleanup :
  fresh_call body -> fresh_call cleanup -> fresh_call (try_finally body cleanup).
Proof.
  intros Hb Hc. apply always_try_finally. eapply always_weaken; [|exact Hb].
  intros o t1 H1.
  assert (K : always cleanup (fun o2 t2 =>
            forall fresh, enumerations_fresh fresh (t1 ++ t2) = true)).
  { eapply always_weaken; [|exact Hc].
    intros o2 t2 H2 fresh. rewrite enumerations_fresh_app, H1, H2. reflexivity. }
  destruct o as [a|[e|c|]]; try exact K. exact H1.
Qed.

(** When [find_windows] returns, its last event resolved the window. *)
Lemma find_windows_resolves :
  always find_windows (fun o t =>
    forallb no_descendants t = true
    /\ (o = Ret tt -> forall fresh, resolved_after fresh t = true)).
Proof.
  intros s. pose proof (find_windows_connects_or_launches s) as H.
  destruct (app_connect (world s)) as [[e|[]] w1].
  - cbv zeta in H. destruct H as [_ H]. rewrite H. cbn [fst snd].
    split; reflexivity.
  - rewrite H. split; reflexivity.
Qed.

(** An enumeration that directly follows [find_windows]. *)
Lemma fresh_call_acquired {B} (m : M B) :
  fresh_after m -> fresh_call (find_windows ;; m).
Proof.
  intros Hm. apply (always_seq _ _ _ _ find_windows_resolves).
  - intros [] t1 [N R]. eapply always_weaken; [|exact Hm].
    intros o t2 H2 fresh.
    rewrite enumerations_fresh_app, (no_descendants_fresh _ _ N), (R eq_refl). exact H2.
  - intros ab t1 [N _] fresh. apply no_descendants_fresh, N.
Qed.

Lemma fresh_after_enumerate {B} ct (k : list Control -> M B) :
  (forall l, fresh_call (k l)) ->
  fresh_after (emit (EvDescendants ct) ;; l <- call (win_descendants ct) ;; k l).
Proof.
  intros Hk. apply always_bind, always_emit, always_bind, always_call.
  - intros l. eapply always_weaken; [|apply (Hk l)].
    intros o t H. cbn. apply H.
  - intros e. reflexivity.
Qed.

Lemma find_windows_no_descendants : emits_only no_descendants find_windows.
Proof.
  apply (emits_only_weaken is_acquisition); [|apply find_windows_events].
  intros [] H; try discriminate H; reflexivity.
Qed.

Lemma close_dialogs_no_descendants : emits_only no_descendants close_dialogs.
Proof.
  unfold close_dialogs, click_button_by_name.
  repeat first [ apply emits_only_bind; [|intros ?] | apply find_windows_no_descendants ];
    emits.
Qed.

Lemma get_bezi_state_fresh : fresh_call get_bezi_state.
Proof.
  unfold get_bezi_state. apply fresh_call_acquired.
  unfold find_submit_button. apply always_bind.
  eapply always_weaken;
    [|apply (fresh_after_enumerate None (fun l => ret (List.find is_submit_button l)))].
  2: { intros l. apply fresh_call_emits. emits. }
  intros [[b|]|ab] t1 H1; [| |exact H1].
  - eapply always_weaken;
      [|apply (fresh_call_emits
                 (state <- get_button_state b ;; emit (EvReading state) ;; ret state))].
    + intros o t2 H2. rewrite enumerations_fresh_app, H1. apply H2.
    + unfold get_button_state, getattr, raise. emits.
  - eapply always_weaken;
      [|apply (fresh_call_emits (print_err "unable to find submit button" ;; sys_exit 1))].
    + intros o t2 H2. rewrite enumerations_fresh_app, H1. apply H2.
    + unfold print_err, sys_exit. emits.
Qed.

Lemma wait_inactive_fresh (fuel : nat) : fresh_call (wait_inactive fuel).
Proof.
  induction fuel as [|fuel IH]; cbn [wait_inactive].
  { apply fresh_call_emits. emits. }
  apply fresh_call_bind; [apply get_bezi_state_fresh|intros state].
  destruct (ActivityState_eqb INACTIVE state); [apply fresh_call_emits; emits|].
  apply fresh_call_bind; [apply fresh_call_emits, close_dialogs_no_descendants|intros _].
  apply fresh_call_bind; [apply fresh_call_emits; unfold sleep; emits|intros _].
  exact IH.
Qed.

Lemma send_prompt_fresh (fuel : nat) (message : option string) :
  fresh_call (send_prompt fuel message).
Proof.
  unfold send_prompt. destruct (prompt_falsy message).
  { apply fresh_call_emits. unfold raise. emits. }
  apply fresh_call_bind; [apply wait_inactive_fresh|intros _].
  apply fresh_call_bind; [apply fresh_call_emits, close_dialogs_no_descendants|intros _].
  apply fresh_call_bind.
  { apply fresh_call_try_except.
    - apply fresh_call_acquired, fresh_after_enumerate. intros edits.
      apply fresh_call_emits. unfold last_item, raise, sleep. emits.
    - intros e. apply fresh_call_emits. unfold print_err. emits. }
  intros sent. destruct sent; cbn [negb]; [|apply fresh_call_emits; emits].
  apply fresh_call_bind; [apply fresh_call_emits, find_windows_no_descendants|intros _].
  apply fresh_call_bind; [apply wait_inactive_fresh|intros _].
  apply fresh_call_bind; [apply fresh_call_emits, close_dialogs_no_descendants|intros _].
  apply fresh_call_acquired.
  apply (fresh_after_enumerate (Some "Text")
           (fun elements => ret (Harvested (List.map (fun e => py_strip (ctl_text e)) elements)))).
  intros l. apply fresh_call_emits. emits.
Qed.

Lemma enumerations_fresh_at (t before after : trace) (ct : option string) :
  enumerations_fresh false t = true ->
  t = before ++ EvDescendants ct :: after ->
  exists earlier e, before = earlier ++ e :: nil /\ is_window_resolved e = true.
Proof.
  intros F ->. rewrite enumerations_fresh_app in F.
  apply andb_prop in F as [_ F]. cbn in F. apply andb_prop in F as [F _].
  destruct before as [|x before] using rev_ind; [discriminate F|].
  exists before, x. split; [reflexivity|].
  clear IHbefore. revert F. generalize false.
  induction before as [|y before IH]; intros b F; [exact F|].
  cbn in F. apply (IH _ F).
Qed.

(** X10. In a call of [send_prompt], every enumeration of the window's
    descendants (for the state indicator, the edit control, the texts)
    comes directly after [find_windows] has resolved the window: the event
    just before it is the connection or the launch, with no pause, click or
    key stroke in between. *)
Theorem send_prompt_enumerates_fresh_window
    (fuel : nat) (message : option string) (s : State)
    (before after : trace) (ct : option string) :
  snd (send_prompt fuel message s) = before ++ EvDescendants ct :: after ->
  exists earlier e,
    before = earlier ++ e :: nil
    /\ (e = EvConnect \/ exists path, e = EvStart path).
Proof.
  intros T.
  destruct (enumerations_fresh_at _ before after ct
              (send_prompt_fresh fuel message s false) T) as (earlier & e & -> & R).
  exists earlier, e. split; [reflexivity|].
  destruct e; try discriminate R; [left; reflexivity|right; eexists; reflexivity].
Qed.

End Freshness.

(** Scenario A: the enumeration for the edit control, the 28th event of the
    submission, directly follows a connection. *)
Lemma send_prompt_enumerates_fresh_window_witness :
  let t := snd (send_prompt 5 (Some "Hello") (Script.facing Script.loaded Script.scenario_A)) in
  nth 27 t EvSetFocus = EvDescendants (Some "Edit")
  /\ exists earlier e,
       firstn 27 t = earlier ++ e :: nil
       /\ (e = EvConnect \/ exists path, e = EvStart path).
Proof.
  split; [reflexivity|].
  apply (send_prompt_enumerates_fresh_window 5 (Some "Hello")
           (Script.facing Script.loaded Script.scenario_A)
           (firstn 27 (snd (send_prompt 5 (Some "Hello")
                              (Script.facing Script.loaded Script.scenario_A))))
           (skipn 28 (snd (send_prompt 5 (Some "Hello")
                             (Script.facing Script.loaded Script.scenario_A))))
           (Some "Edit")).
  reflexivity.
Defined.

(** ** What [run] reports *)
Section Reports.

Context {E : Env}.

Lemma always_outcome {A} (m : M A) (Q : outcome A -> Prop) :
  (forall s, Q (fst (fst (m s)))) -> always m (fun o _ => Q o).
Proof. intros H s. apply H. Qed.

(** [validate_arguments] validates nothing: it returns [True] or raises. *)
Lemma validate_arguments_true :
  always validate_arguments (fun o _ => forall b, o = Ret b -> b = true).
Proof.
  assert (T : forall m : M unit,
            always (m ;; ret true) (fun o _ => forall b, o = Ret b -> b = true)).
  { intros m s. unfold bind, ret. destruct (m s) as [[[[]|ab] s1] t1]; cbn.
    - intros b [= <-]. reflexivity.
    - intros b H. discriminate H. }
  unfold validate_arguments, the_args, the_config, raise.
  apply always_bind, always_bind, always_gets. intros [a|].
  2: { cbn beta iota. apply always_stop. intros b H. discriminate H. }
  cbn beta iota. apply always_ret. cbn beta iota.
  destruct (arg_init a).
  - apply always_bind, always_bind, always_gets. intros [c|].
    2: { cbn beta iota. apply always_stop. intros b H. discriminate H. }
    cbn beta iota. apply always_ret. cbn beta iota.
    apply always_bind, always_modify. cbn beta iota. apply T.
  - apply always_bind, always_bind, always_gets. intros [c|].
    2: { cbn beta iota. apply always_stop. intros b H. discriminate H. }
    cbn beta iota. apply always_ret. cbn beta iota.
    apply always_bind, always_modify. cbn beta iota.
    destruct (arg_prompt a) as [[|ch rest]|]; try apply T.
    apply always_branch.
    + unfold query. apply always_bind, always_call.
      * intros text. cbn beta iota. apply T.
      * intros e b H. discriminate H.
    + apply T.
Qed.

Lemma run_setup_early :
  forall cmdline,
    always (run_setup cmdline) (fun o _ =>
      forall r, o = Ret (inl r) -> r = (true, VMessage "Initialization Complete")).
Proof.
  intros cmdline. unfold run_setup.
  apply always_bind, (always_emits (fun _ => true)).
  { intros s. clear. induction (snd (load_config s)); [reflexivity|assumption]. }
  intros [c|ab] t0 _; [|intros r H; discriminate H].
  apply always_bind, always_modify. cbn beta iota.
  apply always_bind, (always_emits (fun _ => true)).
  { intros s. clear. induction (snd (parse_arguments cmdline s)); [reflexivity|assumption]. }
  intros [a0|ab] t1 _; [|intros r H; discriminate H].
  apply always_bind, (always_emits (fun _ => true)).
  { intros s. clear. induction (snd (find_windows s)); [reflexivity|assumption]. }
  intros [[]|ab] t2 _; [|intros r H; discriminate H].
  apply always_bind. eapply always_weaken; [|apply validate_arguments_true].
  intros [valid|ab] t3 V; [|intros r H; discriminate H].
  rewrite (V valid eq_refl). cbn [negb].
  unfold the_args, raise.
  apply always_bind, always_bind, always_gets. intros [a|].
  2: { cbn beta iota. apply always_stop. intros r H. discriminate H. }
  cbn beta iota. apply always_ret. cbn beta iota.
  destruct (arg_init a).
  - apply always_bind, always_gets. intros c'. cbn beta iota.
    unfold save_config.
    apply always_bind, always_bind, always_emit, always_call.
    + intros []. cbn beta iota. apply always_ret. intros r [= <-]. reflexivity.
    + intros e r H. discriminate H.
  - apply always_bind, (always_emits (fun _ => true)).
    { intros s. clear. induction (snd (new_thread s)); [reflexivity|assumption]. }
    intros [[]|ab] t4 _; [|intros r H; discriminate H].
    apply always_ret. intros r H. discriminate H.
Qed.

(** X11. [run] never reports a failure: whenever it returns, the first
    component of its result is [True], and the second is "Initialization
    Complete", on the early return of an initialization, or else the very
    value that [send_prompt] returned for the prompt of the bridge.  The
    return of [(False, "Invalid Args")] is never taken, because
    [validate_arguments] returns [True] or raises. *)
Theorem run_reports_success (cmdline : Z + Args) (fuel : nat) (s : State)
    (success : bool) (result : run_value) :
  fst (fst (run cmdline fuel s)) = Ret (success, result) ->
  success = true
  /\ match fst (fst (run_setup cmdline (awake s))) with
     | Ret (inl _) => result = VMessage "Initialization Complete"
     | Ret (inr _) =>
         let s1 := snd (fst (run_setup cmdline (awake s))) in
         exists r, fst (fst (send_prompt fuel (bezi_prompt (self s1)) s1)) = Ret r
                   /\ result = VSend r
     | Abort _ => False
     end.
Proof.
  intros H. rewrite run_unfold in H. cbv zeta in H.
  change (mkState (SetThreadExecutionState _ (world s)) (self s)) with (awake s) in H.
  set (body := bind (run_setup cmdline) _) in H.
  pose proof (try_finally_release body (awake s)) as R.
  assert (D : fst (fst (body (awake s))) = Abort Diverge ->
              fst (fst (try_finally body (set_keep_awake false) (awake s)))
              = Abort Diverge).
  { unfold try_finally. destruct (body (awake s)) as [[[x|[e|c|]] s2] t2]; cbn; congruence. }
  assert (B : fst (fst (body (awake s))) = Ret (success, result)).
  { destruct (try_finally body (set_keep_awake false) (awake s)) as [[o s'] t].
    cbn [fst snd] in *. subst o.
    destruct (fst (fst (body (awake s)))) as [x|[e|c|]] eqn:X.
    - destruct R as [R _]; [discriminate|]. symmetry. exact R.
    - destruct R as [R _]; [discriminate|]. discriminate R.
    - destruct R as [R _]; [discriminate|]. discriminate R.
    - discriminate (D eq_refl). }
  clear H R D. unfold body in B. clear body.
  pose proof (run_setup_early cmdline (awake s)) as Early. cbv beta in Early.
  unfold bind at 1 in B.
  destruct (run_setup cmdline (awake s)) as [[[[r|[]]|ab] s1] t1]; cbn [fst snd] in *.
  - rewrite (Early r eq_refl) in B. cbn in B. injection B as <- <-.
    split; reflexivity.
  - rewrite bind_gets in B. unfold bind in B.
    destruct (send_prompt fuel (bezi_prompt (self s1)) s1) as [[[r|ab] s2] t2];
      cbn [fst snd] in *; [|discriminate B].
    injection B as <- <-. split; [reflexivity|]. exists r. split; reflexivity.
  - discriminate B.
Qed.


End Reports.

(** The run that cannot find the edit control still reports success. *)
Lemma run_reports_success_witness :
  fst (fst (run (Script.say "Hello") 5 (Script.facing Script.loaded Script.no_edit_box)))
  = Ret (true, VSend SendFailed)
  /\ true = true.
Proof.
  split; [reflexivity|].
  apply (run_reports_success (Script.say "Hello") 5
           (Script.facing Script.loaded Script.no_edit_box) true (VSend SendFailed)).
  reflexivity.
Defined.

(** ** An initialization run *)
Section Initialization.

Context {E : Env}.

Lemma find_windows_keeps (s s1 : State) (o : outcome unit) (t : trace) :
  find_windows s = (o, s1, t) ->
  args (self s1) = args (self s) /\ config (self s1) = config (self s)
  /\ bezi_prompt (self s1) = bezi_prompt (self s).
Proof.
  pose proof (find_windows_connects_or_launches s) as H.
  destruct (app_connect (world s)) as [[e|[]] w1].
  - cbv zeta in H. destruct H as [_ H]. rewrite H. intros [= _ <- _].
    cbn [self]. destruct (truthy (bezi_path (self s))); repeat split.
  - rewrite H. intros [= _ <- _]. repeat split.
Qed.

(** [validate_arguments] on an initialization run. *)
Lemma validate_arguments_init (s : State) (a : Args) (c : gmap string jval) :
  args (self s) = Some a -> arg_init a = true -> config (self s) = Some c ->
  let p := or_else (arg_bezi_path a) (JStr default_bezi_path) in
  let c' := <["bezi_path" := p]> (<["initialized" := JBool true]> c) in
  validate_arguments s
  = (Ret true, mkState (world s) (with_path p (with_config (Some c') (self s))), nil).
Proof.
  intros Ha Hi Hc p c'. unfold validate_arguments, the_args, the_config.
  rewrite bind_assoc, bind_gets, Ha, bind_ret, Hi.
  rewrite bind_assoc, bind_gets, Hc, bind_ret.
  subst p c'. cbv zeta.
  rewrite bind_modify, bind_modify. cbn [world self].
  rewrite lookup_insert_eq. reflexivity.
Qed.

Lemma first_config (p : jval) :
  <["bezi_path" := p]>
    (<["initialized" := JBool true]>
       (<["initialized" := JBool false]> (<["bezi_path" := JNull]> (∅ : gmap string jval))))
  = <["initialized" := JBool true]> (<["bezi_path" := p]> ∅).
Proof.
  apply map_eq. intros k.
  destruct (decide (k = "bezi_path")) as [Hb|Hb];
    [subst k|destruct (decide (k = "initialized")) as [Hi|Hi]; [subst k|]];
    repeat first [ rewrite lookup_insert_eq
                 | rewrite lookup_insert_ne by (intros Q; first [discriminate Q|congruence]) ];
    reflexivity.
Qed.

(** X12. An initialization run without a configuration file (or with an
    empty one) only acquires the window and writes the configuration: the
    configuration written and kept is exactly ["initialized": true] and
    ["bezi_path"] set to the path of the command line, or to the default
    install path when none (or an empty one) is given; the run reports
    [(True, "Initialization Complete")] and neither opens a new thread nor
    submits anything. *)
Theorem init_run_writes_config (a : Args) (fuel : nat) (s s1 : State)
    (tf : trace) (w2 : W) :
  let p := or_else (arg_bezi_path a) (JStr default_bezi_path) in
  let written : gmap string jval :=
    <["initialized" := JBool true]> (<["bezi_path" := p]> ∅) in
  let first : gmap string jval :=
    <["initialized" := JBool false]> (<["bezi_path" := JNull]> ∅) in
  arg_init a = true ->
  path_exists config_file (world (awake s))
    && (0 <? path_getsize config_file (world (awake s))) = false ->
  find_windows (mkState (world (awake s))
                  (with_args (Some a) (with_config (Some first) (self s))))
  = (Ret tt, s1, tf) ->
  json_dump config_file (Some written) (world s1) = (inr tt, w2) ->
  truthy p = true
  /\ exists s',
       run (inr a) fuel s
       = (Ret (true, VMessage "Initialization Complete"), s',
          EvExecState (Z.lor (Z.lor ES_CONTINUOUS ES_SYSTEM_REQUIRED) ES_DISPLAY_REQUIRED)
          :: tf ++ EvJsonDump config_file :: EvExecState ES_CONTINUOUS :: nil)
       /\ config (self s') = Some written
       /\ bezi_path (self s') = p.
Proof.
  intros p written first Hi Hx HF HD.
  split.
  { unfold p, or_else. destruct (arg_bezi_path a) as [[|ch rest]|]; reflexivity. }
  destruct (find_windows_keeps _ _ _ _ HF) as (Ka & Kc & _). cbn [self args config with_args with_config] in Ka, Kc.
  pose proof (validate_arguments_init s1 a first Ka Hi Kc) as V. cbv zeta in V.
  fold p in V. unfold first in V. rewrite first_config in V. fold written in V.
  set (s2 := mkState (world s1) (with_path p (with_config (Some written) (self s1)))) in V.
  assert (S : run_setup (inr a) (awake s)
              = (Ret (inl (true, VMessage "Initialization Complete")),
                 mkState w2 (self s2), tf ++ EvJsonDump config_file :: nil)).
  { unfold run_setup.
    assert (L : load_config (awake s) = (Ret first, awake s, nil)).
    { unfold load_config. rewrite Hx. reflexivity. }
    rewrite (bind_returns _ _ _ _ _ _ L), bind_modify. cbn [parse_arguments].
    rewrite bind_assoc, bind_modify, bind_ret. cbn [world self app].
    rewrite (bind_returns _ _ _ _ _ _ HF), (bind_returns _ _ _ _ _ _ V). cbn [negb app].
    unfold the_args. rewrite bind_assoc, bind_gets.
    assert (A2 : args (self s2) = Some a) by exact Ka.
    rewrite A2, bind_ret, Hi, bind_gets.
    unfold save_config. rewrite bind_assoc, bind_emit.
    assert (C2 : config (self s2) = Some written) by reflexivity.
    rewrite C2, (bind_call_ok _ _ s2 _ _ HD). cbn. rewrite ?app_nil_r. reflexivity. }
  rewrite run_unfold. cbv zeta.
  change (mkState (SetThreadExecutionState _ (world s)) (self s)) with (awake s).
  unfold try_finally. rewrite (bind_returns _ _ _ _ _ _ S). cbn.
  eexists. split; [rewrite ?app_nil_r, <- ?app_assoc; reflexivity|].
  split; reflexivity.
Qed.

End Initialization.

(** Scenario C of the specification: no configuration file, no path on the
    command line. *)
Lemma init_run_writes_config_witness :
  exists s',
    run (inr (mkArgs None None true false)) 0 (Script.facing Script.loaded Script.scenario_A)
    = (Ret (true, VMessage "Initialization Complete"), s',
       EvExecState 2147483651 :: EvConnect :: EvJsonDump config_file
       :: EvExecState 2147483648 :: nil)
    /\ config (self s')
       = Some (<["initialized" := JBool true]>
                 (<["bezi_path" := JStr default_bezi_path]> ∅)).
Proof.
  destruct (init_run_writes_config (mkArgs None None true false) 0
              (Script.facing Script.loaded Script.scenario_A)
              (Script.facing
                 (with_args (Some (mkArgs None None true false))
                    (with_config
                       (Some (<["initialized" := JBool false]> (<["bezi_path" := JNull]> ∅)))
                       Script.loaded))
                 Script.scenario_A)
              (EvConnect :: nil) Script.scenario_A
              eq_refl eq_refl eq_refl eq_refl)
    as (_ & s' & R & C & _).
  exists s'. split; [exact R|exact C].
Defined.

(** ** The tracing decorator and the timings *)
Section Tracing.

Import Perf.
Context {C : Clock}.

Lemma log_entry_logger (name : string) (s : Traced) :
  level (perf_logger (log_entry name s)) = level (perf_logger s) + 1
  /\ console_debug (perf_logger (log_entry name s)) = console_debug (perf_logger s)
  /\ timings (perf_logger (log_entry name s)) = timings (perf_logger s)
  /\ stderr (log_entry name s)
     = stderr s ++ (if console_debug (perf_logger s)
                    then entering_line (level (perf_logger s)) name :: nil
                    else nil).
Proof.
  unfold log_entry. cbv zeta.
  destruct (console_debug (perf_logger s)) eqn:D; cbn;
    rewrite ?D, ?app_nil_r; repeat split.
Qed.

Lemma read_clock_logger (s : Traced) :
  perf_logger (snd (read_clock s)) = perf_logger s
  /\ stderr (snd (read_clock s)) = stderr s.
Proof.
  unfold read_clock. destruct (perf_counter (outside s)) as [now k]. split; reflexivity.
Qed.

Lemma log_exit_logger (name : string) (duration : spec_float) (s : Traced) :
  level (perf_logger (log_exit name duration s)) = level (perf_logger s) - 1
  /\ console_debug (perf_logger (log_exit name duration s)) = console_debug (perf_logger s)
  /\ (exists stamp,
        timings (perf_logger (log_exit name duration s))
        = timings (perf_logger s) ++ mkTiming stamp name (round6 duration) :: nil)
  /\ stderr (log_exit name duration s)
     = stderr s ++ (if console_debug (perf_logger s)
                    then exiting_line (level (perf_logger s) - 1) name (format4 duration) :: nil
                    else nil).
Proof.
  unfold log_exit. cbv zeta.
  change (console_debug (perf_logger (set_level (level (perf_logger s) - 1) s)))
    with (console_debug (perf_logger s)).
  destruct (console_debug (perf_logger s)) eqn:D; cbn;
    rewrite ?D, ?app_nil_r; repeat split; eexists; reflexivity.
Qed.

(** X13. Tracing does not change how a function ends: [debug_trace(func)]
    returns or raises what [func] does.  Around a function that keeps the
    logger balanced, and however it ended except by not ending at all (by
    a value, an exception or [exit]), the decorator restores the nesting
    level, adds exactly one timing row for the function after the rows of
    the calls made inside it, and with the console trace on brackets the
    lines of the function between an "Entering" and an "Exiting" line of
    equal indentation; so the traced function again keeps the logger
    balanced. *)
Theorem debug_trace_brackets {A} (name : string) (func : T A) :
  keeps_logger func ->
  keeps_logger (debug_trace name func)
  /\ forall s,
       fst (debug_trace name func s) = fst (func (entered name s))
       /\ (fst (debug_trace name func s) <> Abort Diverge ->
           level (perf_logger (snd (debug_trace name func s))) = level (perf_logger s)
           /\ (exists rows stamp d,
                 timings (perf_logger (snd (debug_trace name func s)))
                 = timings (perf_logger s) ++ rows ++ mkTiming stamp name d :: nil)
           /\ exists lines duration,
                stderr (snd (debug_trace name func s))
                = stderr s
                  ++ (if console_debug (perf_logger s)
                      then entering_line (level (perf_logger s)) name :: nil else nil)
                  ++ lines
                  ++ (if console_debug (perf_logger s)
                      then exiting_line (level (perf_logger s)) name duration :: nil
                      else nil)).
Proof.
  intros Kf.
  assert (Main : forall s,
    fst (debug_trace name func s) = fst (func (entered name s))
    /\ (fst (debug_trace name func s) <> Abort Diverge ->
        level (perf_logger (snd (debug_trace name func s))) = level (perf_logger s)
        /\ console_debug (perf_logger (snd (debug_trace name func s)))
           = console_debug (perf_logger s)
        /\ (exists rows stamp d,
              timings (perf_logger (snd (debug_trace name func s)))
              = timings (perf_logger s) ++ rows ++ mkTiming stamp name d :: nil)
        /\ exists lines duration,
             stderr (snd (debug_trace name func s))
             = stderr s
               ++ (if console_debug (perf_logger s)
                   then entering_line (level (perf_logger s)) name :: nil else nil)
               ++ lines
               ++ (if console_debug (perf_logger s)
                   then exiting_line (level (perf_logger s)) name duration :: nil
                   else nil))).
  { intros s. unfold debug_trace, entered.
    destruct (log_entry_logger name s) as (L1 & D1 & T1 & E1).
    destruct (read_clock_logger (log_entry name s)) as (P2 & E2).
    destruct (read_clock (log_entry name s)) as [start s2]. cbn [snd] in *.
    specialize (Kf s2).
    destruct (func s2) as [o s3]. cbn [fst snd] in *.
    assert (Ends : o <> Abort Diverge ->
      level (perf_logger (log_exit name (SFsub F64.prec F64.emax (fst (read_clock s3)) start)
                            (snd (read_clock s3)))) = level (perf_logger s)
      /\ console_debug (perf_logger (log_exit name
             (SFsub F64.prec F64.emax (fst (read_clock s3)) start) (snd (read_clock s3))))
         = console_debug (perf_logger s)
      /\ (exists rows stamp d,
            timings (perf_logger (log_exit name
              (SFsub F64.prec F64.emax (fst (read_clock s3)) start) (snd (read_clock s3))))
            = timings (perf_logger s) ++ rows ++ mkTiming stamp name d :: nil)
      /\ exists lines duration,
           stderr (log_exit name (SFsub F64.prec F64.emax (fst (read_clock s3)) start)
                     (snd (read_clock s3)))
           = stderr s
             ++ (if console_debug (perf_logger s)
                 then entering_line (level (perf_logger s)) name :: nil else nil)
             ++ lines
             ++ (if console_debug (perf_logger s)
                 then exiting_line (level (perf_logger s)) name duration :: nil
                 else nil)).
    { intros N. destruct (Kf N) as (L3 & D3 & [rows T3] & [lines E3]).
      destruct (read_clock_logger s3) as (P4 & E4).
      set (d := SFsub F64.prec F64.emax (fst (read_clock s3)) start).
      destruct (log_exit_logger name d (snd (read_clock s3))) as (L5 & D5 & [stamp T5] & E5).
      rewrite P4 in L5, D5, T5, E5. rewrite P2 in L3, D3, T3.
      repeat split.
      - rewrite L5, L3, L1. lia.
      - rewrite D5, D3, D1. reflexivity.
      - exists rows, stamp, (round6 d). rewrite T5, T3, T1, <- app_assoc. reflexivity.
      - exists lines, (format4 d).
        rewrite E5, E4, E3, E2, E1, D3, D1, L3, L1.
        replace (level (perf_logger s) + 1 - 1) with (level (perf_logger s)) by lia.
        rewrite <- !app_assoc. reflexivity. }
    destruct (read_clock s3) as [stop_ s4]. cbn [fst snd] in Ends.
    destruct o as [a|[e|c|]]; cbn [fst snd]; (split; [reflexivity|]);
      try (intros _; apply Ends; discriminate).
    intros N. contradiction N. reflexivity. }
  split.
  - intros s N. destruct (Main s) as [_ M]. destruct (M N) as (L & D & (rows & stamp & d & Tm) & (lines & dur & Er)).
    repeat split; [exact L|exact D|eexists; exact Tm|eexists; exact Er].
  - intros s. destruct (Main s) as [O M]. split; [exact O|].
    intros N. destruct (M N) as (L & _ & Tm & Er). repeat split; assumption.
Qed.

(** X14. [save_timings] never raises and never changes the logger: with no
    timings it does nothing at all; otherwise it appends all the rows to the
    file, with the header exactly when the file did not exist, and prints
    one line, which says that the timings were saved or why they were not.
    The rows stay in the logger afterwards. *)
Theorem save_timings_never_raises (s : Traced) :
  fst (save_timings s) = Ret tt
  /\ perf_logger (snd (save_timings s)) = perf_logger s
  /\ (timings (perf_logger s) = nil -> snd (save_timings s) = s)
  /\ (timings (perf_logger s) <> nil ->
      let written :=
        csv_append (negb (timings_exist (outside s))) (timings (perf_logger s)) (outside s) in
      outside (snd (save_timings s)) = snd written
      /\ stderr (snd (save_timings s))
         = stderr s
           ++ match fst written with
              | inr _ => "Performance timings saved to debug_timings.csv"
              | inl e => ("Failed to save timings: " ++ exn_msg e)%string
              end :: nil).
Proof.
  unfold save_timings.
  destruct (timings (perf_logger s)) as [|row rows] eqn:Tm.
  - split; [reflexivity|]. split; [reflexivity|]. split; [reflexivity|].
    intros N. contradiction N. reflexivity.
  - destruct (csv_append (negb (timings_exist (outside s))) (row :: rows) (outside s))
      as [[e|[]] k]; cbn;
      (split; [reflexivity|]); (split; [reflexivity|]);
      (split; [intros H; discriminate H|]); intros _; split; reflexivity.
Qed.

End Tracing.

(** A traced function that raises, with the console trace on: the
    exception goes through, the level is back at 0, and there is one
    row. *)
Lemma debug_trace_brackets_witness :
  fst (Perf.debug_trace "send_prompt" Perf.failing Perf.quiet_start)
  = Abort (Raise (Exn ValueError "Empty prompt"))
  /\ Perf.level (Perf.perf_logger
                   (snd (Perf.debug_trace "send_prompt" Perf.failing Perf.quiet_start))) = 0
  /\ Perf.stderr (snd (Perf.debug_trace "send_prompt" Perf.failing Perf.quiet_start))
     = "Entering send_prompt" :: "Exiting send_prompt (1.0000s)" :: nil.
Proof.
  assert (K : Perf.keeps_logger Perf.failing).
  { intros s _. repeat split; exists nil; rewrite app_nil_r; reflexivity. }
  destruct (debug_trace_brackets "send_prompt" Perf.failing K) as [_ H].
  destruct (H Perf.quiet_start) as [O M].
  split; [exact O|]. split; [|reflexivity].
  apply M. vm_compute. discriminate.
Defined.

(** ** The ends of the process *)
Section Ends.

Context {E : Env}.



(** *** No method of the bridge saves the timings *)













(** ** The state that is read *)

(** X17. [get_bezi_state] returns a state only for a control that is 56
    wide and 56 high: its last two events are the capture of that control
    and the reading it returns. *)
Theorem get_bezi_state_reads_indicator (s : State) (state : ActivityState) :
  fst (fst (get_bezi_state s)) = Ret state ->
  exists earlier button,
    snd (get_bezi_state s) = earlier ++ EvCapture button :: EvReading state :: nil
    /\ ctl_width button = 56 /\ ctl_height button = 56.
Proof.
  revert s state.
  change (always get_bezi_state (fun o t =>
    forall state, o = Ret state ->
      exists earlier button,
        t = earlier ++ EvCapture button :: EvReading state :: nil
        /\ ctl_width button = 56 /\ ctl_height button = 56)).
  unfold get_bezi_state.
  apply always_bind, (always_emits (fun _ => true)).
  { intros s. clear. induction (snd (find_windows s)); [reflexivity|assumption]. }
  intros [[]|ab] t1 _; [|intros state H; discriminate H].
  unfold find_submit_button.
  apply always_bind, always_bind, always_emit, always_bind, always_call.
  2: { intros e state H. discriminate H. }
  intros l. apply always_ret. cbn beta iota.
  pose proof (find_first is_submit_button l) as F.
  destruct (List.find is_submit_button l) as [b|].
  2: { unfold print_err, sys_exit. apply always_bind, always_emit, always_stop.
       intros state H. discriminate H. }
  destruct F as (_ & _ & _ & Fb & _). unfold is_submit_button in Fb.
  apply andb_prop in Fb as [Fw Fh]. apply Z.eqb_eq in Fw, Fh.
  apply always_bind.
  apply (always_weaken _ (fun o t => t = EvCapture b :: nil)).
  - intros [state|ab] t2 ->; [|intros state H; discriminate H].
    apply always_bind, always_emit, always_ret.
    intros state' [= <-]. exists (t1 ++ EvDescendants None :: nil), b.
    rewrite <- !app_assoc. cbn. repeat split; assumption.
  - intros s. unfold get_button_state. rewrite bind_emit.
    destruct (bind (call (ctl_capture b)) _ s) as [[o s'] t] eqn:B. cbn [snd].
    assert (T : t = nil); [|rewrite T; reflexivity].
    assert (Q : emits_only silent
                  (current_img <- call (ctl_capture b) ;;
                   busy <- getattr "ready_icon_busy" ready_icon_busy ;;
                   if images_match busy current_img F64.lit_0_90 then ret BUSY else
                   inactive <- getattr "ready_icon_inactive" ready_icon_inactive ;;
                   if images_match inactive current_img F64.lit_0_90 then ret INACTIVE else
                   active <- getattr "ready_icon_active" ready_icon_active ;;
                   if images_match active current_img F64.lit_0_90 then ret READY else
                   ret UNKNOWN)).
    { unfold getattr, raise. emits. }
    exact (silent_trace _ _ _ _ _ Q B).
Qed.

End Ends.

Lemma get_bezi_state_reads_indicator_witness :
  exists earlier button,
    snd (get_bezi_state (Script.facing Script.loaded Script.scenario_A))
    = earlier ++ EvCapture button :: EvReading BUSY :: nil
    /\ ctl_width button = 56 /\ ctl_height button = 56.
Proof.
  apply (get_bezi_state_reads_indicator (Script.facing Script.loaded Script.scenario_A) BUSY).
  reflexivity.
Defined.

(** Scenario A: the prompt is set once and Enter sent once. *)
Lemma send_prompt_submits_once_witness :
  exists box,
    List.filter is_injection
      (snd (send_prompt 5 (Some "Hello") (Script.facing Script.loaded Script.scenario_A)))
    = EvSetText box "Hello" :: EvTypeKeys "{ENTER}" :: nil.
Proof.
  apply (proj2 (send_prompt_submits_once 5 (Some "Hello")
                  (Script.facing Script.loaded Script.scenario_A))
           ("All done." :: nil)).
  reflexivity.
Defined.

(** One row to save, and a file that does not exist yet. *)
Lemma save_timings_never_raises_witness :
  Perf.stderr (snd (Perf.save_timings Perf.one_row))
  = "Performance timings saved to debug_timings.csv" :: nil.
Proof.
  destruct (proj2 (proj2 (proj2 (save_timings_never_raises Perf.one_row)))) as [_ H];
    [discriminate|exact H].
Defined.

